(** * Floating panels: the view-placement service of the workbench

    A shallow embedding of
    [src/vs/workbench/services/floatingPanel/browser/floatingPanelService.ts]
    (classes [FloatingPanel] and [FloatingPanelService]) and of the float
    command of
    [src/vs/workbench/contrib/floatingPanel/browser/floatingPanel.contribution.ts].

    The service is stateful: its two [Map]s, the static id counter of
    [FloatingPanel], the windows handed out by the auxiliary window service
    and the observable calls it makes (events fired, focus requests, view
    moves) are threaded through the operations as one explicit [State]. *)

From Stdlib Require Import ZArith Lia.
From stdpp Require Import base option list strings pretty gmap fin_maps.


(** ** Data model *)

(** [ViewContainerLocation] of [workbench/common/views]: the three dock
    targets the commands use. *)
Inductive ViewContainerLocation := Sidebar | Panel | AuxiliaryBar.

(** A view descriptor's [name] is either a plain string or a localized
    string carrying a [value]. *)
Inductive ViewName :=
| PlainName (s : string)
| LocalizedName (value : string).

(** The part of [IViewDescriptor] the service and the commands read. *)
Record IViewDescriptor := {
  descriptor_id : string;
  name : ViewName;
  canMoveView : bool
}.

Record Bounds := { width : Z; height : Z }.

(** [IAuxiliaryWindowOpenOptions]: what reaches the auxiliary window
    service. *)
Record IAuxiliaryWindowOpenOptions := { bounds : option Bounds }.

(** [IFloatingPanelOpenOptions extends IAuxiliaryWindowOpenOptions]. *)
Record IFloatingPanelOpenOptions := {
  opt_viewId : string;
  opt_title : option string;
  opt_bounds : option Bounds
}.

(** The readonly fields of [FloatingPanel]; the source's field [id] is
    [panel_id] here. Windows and their containers are handles into the
    window store of [State]. *)
Record FloatingPanel := {
  panel_id : string;
  viewId : string;
  window : nat;
  container : nat
}.

Global Instance ViewName_eq_dec : EqDecision ViewName.
Proof. solve_decision. Defined.
Global Instance IViewDescriptor_eq_dec : EqDecision IViewDescriptor.
Proof. solve_decision. Defined.
Global Instance Bounds_eq_dec : EqDecision Bounds.
Proof. solve_decision. Defined.
Global Instance IAuxiliaryWindowOpenOptions_eq_dec :
  EqDecision IAuxiliaryWindowOpenOptions.
Proof. solve_decision. Defined.
Global Instance ViewContainerLocation_eq_dec : EqDecision ViewContainerLocation.
Proof. solve_decision. Defined.
Global Instance FloatingPanel_eq_dec : EqDecision FloatingPanel.
Proof. solve_decision. Defined.

(** *** Auxiliary windows *)

(** A window is [Live] until it is destroyed or closed from outside;
    [Closing] when its destruction was requested and the unload
    notification is still to come; [Unloaded] once the notification has
    been delivered. *)
Inductive WindowPhase := Live | Closing | Unloaded.

Global Instance WindowPhase_eq_dec : EqDecision WindowPhase.
Proof. solve_decision. Defined.

(** Modelled from the spec: the window handles of the Window Provider
    ([IAuxiliaryWindow], whose implementation is outside the service).
    [onUnload] holds the listeners currently subscribed; the only listeners
    of this subsystem are the closures [() => this.onCloseCallback()] a
    panel registers, each identified by its panel. [syncUnload] records
    whether destroying the window delivers the unload notification inside
    the destroy call or later, from the event loop. *)
Record AuxiliaryWindow := {
  syncUnload : bool;
  phase : WindowPhase;
  onUnload : list FloatingPanel;
  win_container : nat
}.

(** *** Observable calls *)

Inductive Effect :=
| DidOpenFloatingPanel (p : FloatingPanel)    (* _onDidOpenFloatingPanel.fire *)
| DidCloseFloatingPanel (p : FloatingPanel)   (* _onDidCloseFloatingPanel.fire *)
| Focus (w : nat)                             (* window.window.focus() *)
| WindowOpen (o : IAuxiliaryWindowOpenOptions) (* auxiliaryWindowService.open *)
| MoveViewToLocation (d : IViewDescriptor) (l : ViewContainerLocation)
    (reason : string).                        (* viewDescriptorService.moveViewToLocation *)

Global Instance Effect_eq_dec : EqDecision Effect.
Proof. solve_decision. Defined.

(** *** The state *)

(** [idCounter] is the static [FloatingPanel._idCounter], a JavaScript
    number used as a counter and taken here in its exact integer range. *)
Record State := {
  idCounter : nat;
  floatingPanels : gmap string FloatingPanel;
  floatingPanelsByViewId : gmap string FloatingPanel;
  windows : gmap nat AuxiliaryWindow;
  nextWindow : nat;
  effects : list Effect
}.

Definition initial : State :=
  {| idCounter := 0; floatingPanels := ∅; floatingPanelsByViewId := ∅;
     windows := ∅; nextWindow := 0; effects := [] |}.

Definition with_idCounter (n : nat) (s : State) : State :=
  {| idCounter := n; floatingPanels := floatingPanels s;
     floatingPanelsByViewId := floatingPanelsByViewId s;
     windows := windows s; nextWindow := nextWindow s; effects := effects s |}.

Definition with_floatingPanels (m : gmap string FloatingPanel) (s : State) : State :=
  {| idCounter := idCounter s; floatingPanels := m;
     floatingPanelsByViewId := floatingPanelsByViewId s;
     windows := windows s; nextWindow := nextWindow s; effects := effects s |}.

Definition with_floatingPanelsByViewId (m : gmap string FloatingPanel) (s : State) : State :=
  {| idCounter := idCounter s; floatingPanels := floatingPanels s;
     floatingPanelsByViewId := m;
     windows := windows s; nextWindow := nextWindow s; effects := effects s |}.

Definition with_windows (m : gmap nat AuxiliaryWindow) (s : State) : State :=
  {| idCounter := idCounter s; floatingPanels := floatingPanels s;
     floatingPanelsByViewId := floatingPanelsByViewId s;
     windows := m; nextWindow := nextWindow s; effects := effects s |}.

Definition with_nextWindow (n : nat) (s : State) : State :=
  {| idCounter := idCounter s; floatingPanels := floatingPanels s;
     floatingPanelsByViewId := floatingPanelsByViewId s;
     windows := windows s; nextWindow := n; effects := effects s |}.

(** Record one observable call, in chronological order. *)
Definition emit (e : Effect) (s : State) : State :=
  {| idCounter := idCounter s; floatingPanels := floatingPanels s;
     floatingPanelsByViewId := floatingPanelsByViewId s;
     windows := windows s; nextWindow := nextWindow s;
     effects := effects s ++ [e] |}.

(** ** FloatingPanelService.handlePanelClosed *)

Definition handlePanelClosed (panel : FloatingPanel) (s : State) : State :=
  let s1 := with_floatingPanels (delete (panel_id panel) (floatingPanels s)) s in
  let s2 := with_floatingPanelsByViewId
              (delete (viewId panel) (floatingPanelsByViewId s1)) s1 in
  emit (DidCloseFloatingPanel panel) s2.

(** ** The Window Provider *)

Definition setPhase (ph : WindowPhase) (win : AuxiliaryWindow) : AuxiliaryWindow :=
  {| syncUnload := syncUnload win; phase := ph; onUnload := onUnload win;
     win_container := win_container win |}.

Definition setListeners (l : list FloatingPanel) (win : AuxiliaryWindow) : AuxiliaryWindow :=
  {| syncUnload := syncUnload win; phase := phase win; onUnload := l;
     win_container := win_container win |}.

(** Modelled from the spec: firing a window's unload emitter ([Emitter] of
    [base/common/event]) runs every listener subscribed at that moment; a
    panel's listener calls its [onCloseCallback], which is
    [() => this.handlePanelClosed(panel)]. *)
Definition fireUnload (w : nat) (s : State) : State :=
  match windows s !! w with
  | Some win => foldl (λ acc p, handlePanelClosed p acc) s (onUnload win)
  | None => s
  end.

(** Modelled from the spec: the unload notification of a window, which the
    Window Provider delivers once per window: when the user closes the
    window, or when a destruction requested earlier completes. *)
Definition window_unload (w : nat) (s : State) : State :=
  match windows s !! w with
  | Some win =>
      match phase win with
      | Unloaded => s
      | _ => fireUnload w (with_windows (alter (setPhase Unloaded) w (windows s)) s)
      end
  | None => s
  end.

(** Modelled from the spec: the destroy operation of a window
    ([IAuxiliaryWindow.dispose]). Destroying a live window triggers its
    unload notification, synchronously or asynchronously; destroying a
    window twice does nothing more. *)
Definition window_dispose (w : nat) (s : State) : State :=
  match windows s !! w with
  | Some win =>
      match phase win with
      | Live =>
          if syncUnload win then window_unload w s
          else with_windows (alter (setPhase Closing) w (windows s)) s
      | _ => s
      end
  | None => s
  end.

(** The answer of the Window Provider to one [open] request. *)
Inductive OpenOutcome :=
| Rejects (reason : string)
| Resolves (sync : bool).

(** Modelled from the spec: [IAuxiliaryWindowService.open] settling: either
    the request fails, or an independent new window is handed out. *)
Definition auxiliaryWindowService_open (outcome : OpenOutcome) (s : State)
  : (string + nat) * State :=
  match outcome with
  | Rejects e => (inl e, s)
  | Resolves sync =>
      let w := nextWindow s in
      let win := {| syncUnload := sync; phase := Live; onUnload := [];
                    win_container := w |} in
      (inr w, with_nextWindow (S w) (with_windows (<[w := win]> (windows s)) s))
  end.

(** ** class FloatingPanel *)

Definition make_id (n : nat) : string := "floating-panel-" +:+ pretty n.

(** The constructor: takes the next id and subscribes to the window's
    unload notification. *)
Definition new_FloatingPanel (v : string) (w : nat) (c : nat) (s : State)
  : FloatingPanel * State :=
  let panel := {| panel_id := make_id (idCounter s); viewId := v;
                  window := w; container := c |} in
  let s1 := with_idCounter (S (idCounter s)) s in
  (panel,
   with_windows
     (alter (λ win, setListeners (onUnload win ++ [panel]) win) w (windows s1)) s1).

Definition bringToFront (p : FloatingPanel) (s : State) : State :=
  emit (Focus (window p)) s.

(** Modelled from the spec: [Disposable.dispose] of [base/common/lifecycle],
    inherited by the panel. It tears down what the constructor
    [_register]ed, the subscription to the window's unload notification;
    disposing again finds nothing left to remove. *)
Definition Disposable_dispose (p : FloatingPanel) (s : State) : State :=
  with_windows
    (alter (λ win, setListeners (filter (λ q, q ≠ p) (onUnload win)) win)
       (window p) (windows s)) s.

(** [dispose() { this.window.dispose(); super.dispose(); }] *)
Definition dispose (p : FloatingPanel) (s : State) : State :=
  Disposable_dispose p (window_dispose (window p) s).

Definition close (p : FloatingPanel) (s : State) : State := dispose p s.

(** ** class FloatingPanelService *)

Definition defaultBounds : Bounds := {| width := 400; height := 300 |}.

(** [openFloatingPanel] is an [async] function with one [await]. It runs in
    two atomic parts: up to the [await] (the existence check and the request
    to the Window Provider), and from the settled request to the end. *)
Inductive OpenStep :=
| Return (existing : FloatingPanel)
| Await (v : string).

Definition openFloatingPanel_begin (options : IFloatingPanelOpenOptions) (s : State)
  : OpenStep * State :=
  match floatingPanelsByViewId s !! opt_viewId options with
  | Some existing => (Return existing, bringToFront existing s)
  | None =>
      (Await (opt_viewId options),
       emit (WindowOpen {| bounds := Some (default defaultBounds (opt_bounds options)) |}) s)
  end.

Definition openFloatingPanel_resume (v : string) (outcome : OpenOutcome) (s : State)
  : (string + FloatingPanel) * State :=
  match auxiliaryWindowService_open outcome s with
  | (inl e, s1) => (inl e, s1)
  | (inr w, s1) =>
      let c := from_option win_container w (windows s1 !! w) in
      let '(panel, s2) := new_FloatingPanel v w c s1 in
      let s3 := with_floatingPanels (<[panel_id panel := panel]> (floatingPanels s2)) s2 in
      let s4 := with_floatingPanelsByViewId
                  (<[v := panel]> (floatingPanelsByViewId s3)) s3 in
      (inr panel, emit (DidOpenFloatingPanel panel) s4)
  end.

(** A call that runs to completion with nothing interleaved at its
    [await]. *)
Definition openFloatingPanel (options : IFloatingPanelOpenOptions)
    (outcome : OpenOutcome) (s : State) : (string + FloatingPanel) * State :=
  match openFloatingPanel_begin options s with
  | (Return existing, s1) => (inr existing, s1)
  | (Await v, s1) => openFloatingPanel_resume v outcome s1
  end.

Definition closeFloatingPanel (panelId : string) (s : State) : State :=
  match floatingPanels s !! panelId with
  | Some panel => close panel s
  | None => s
  end.

Definition getFloatingPanel (panelId : string) (s : State) : option FloatingPanel :=
  floatingPanels s !! panelId.

Definition getFloatingPanelByViewId (v : string) (s : State) : option FloatingPanel :=
  floatingPanelsByViewId s !! v.

(** [Array.from(this.floatingPanels.values())]: the stored panels. The
    source lists them in insertion order; the finite map keeps no such
    order, and nothing below depends on it. *)
Definition getAllFloatingPanels (s : State) : list FloatingPanel :=
  (map_to_list (floatingPanels s)).*2.

Definition isViewFloating (v : string) (s : State) : bool :=
  bool_decide (is_Some (floatingPanelsByViewId s !! v)).

(** ** A concrete scenario

    The view [explorer], which the registry knows and does not let move, and
    the panel the first float of it creates. *)

Definition explorer : IViewDescriptor :=
  {| descriptor_id := "explorer"; name := PlainName "Explorer";
     canMoveView := false |}.

Definition registry (v : string) : option IViewDescriptor :=
  if decide (v = "explorer") then Some explorer else None.

Definition floatExplorer : IFloatingPanelOpenOptions :=
  {| opt_viewId := "explorer"; opt_title := None; opt_bounds := None |}.

Definition explorerPanel : FloatingPanel :=
  {| panel_id := "floating-panel-0"; viewId := "explorer";
     window := 0; container := 0 |}.

(** The state after [explorer] has been floated once, in a window that
    delivers its unload notification inside destroy ([sync = true]) or
    later ([sync = false]). *)
Definition explorerFloating (sync : bool) : State :=
  (openFloatingPanel floatExplorer (Resolves sync) initial).2.

(** The View Registry ([IViewDescriptorService]) and the host UI
    ([IViewsService]) are collaborators injected into the service and the
    commands: their answers are parameters of the development. *)
Section Collaborators.

Variable getViewDescriptorById : string → option IViewDescriptor.
Variable getFocusedViewName : option string.

Definition dockFloatingPanel (panelId : string) (location : ViewContainerLocation)
    (s : State) : State :=
  match floatingPanels s !! panelId with
  | None => s
  | Some panel =>
      let s1 :=
        match getViewDescriptorById (viewId panel) with
        | Some viewDescriptor =>
            if canMoveView viewDescriptor
            then emit (MoveViewToLocation viewDescriptor location "dock") s
            else s
        | None => s
        end in
      close panel s1
  end.

(** ** FloatViewAction.run *)

(** JavaScript truthiness of an optional string argument: [undefined] and
    the empty string are falsy. *)
Definition truthy (a : option string) : bool :=
  match a with
  | None => false
  | Some x => negb (bool_decide (x = ""))
  end.

Definition titleOf (d : IViewDescriptor) : string :=
  match name d with
  | PlainName x => x
  | LocalizedName value => value
  end.

Definition FloatViewAction_run (arg : option string) (outcome : OpenOutcome)
    (s : State) : State :=
  if negb (truthy arg) then
    (* Get the focused view if no viewId provided *)
    if truthy getFocusedViewName then
      (* Try to resolve the view ID from the focused view *)
      s
    else s
  else
    match arg with
    | None => s
    | Some v =>
        match getViewDescriptorById v with
        | None => s
        | Some viewDescriptor =>
            if isViewFloating v s then
              match getFloatingPanelByViewId v s with
              | Some panel => bringToFront panel s
              | None => s
              end
            else
              (openFloatingPanel
                 {| opt_viewId := v; opt_title := Some (titleOf viewDescriptor);
                    opt_bounds := Some {| width := 500; height := 400 |} |}
                 outcome s).2
        end
    end.

(** ** Sequential use of the service *)

(** One operation of the manager run to completion, or the unload
    notification of a window. *)
Inductive Operation :=
| OpenFloatingPanel (options : IFloatingPanelOpenOptions) (outcome : OpenOutcome)
| CloseFloatingPanel (panelId : string)
| DockFloatingPanel (panelId : string) (location : ViewContainerLocation)
| WindowUnload (w : nat).

Definition perform (op : Operation) (s : State) : State :=
  match op with
  | OpenFloatingPanel options outcome => (openFloatingPanel options outcome s).2
  | CloseFloatingPanel panelId => closeFloatingPanel panelId s
  | DockFloatingPanel panelId location => dockFloatingPanel panelId location s
  | WindowUnload w => window_unload w s
  end.

Definition performAll (ops : list Operation) (s : State) : State :=
  foldl (λ acc op, perform op acc) s ops.

(** ** The event loop *)

(** The service runs on one cooperative event loop. Calls of
    [openFloatingPanel] that reached their [await] are suspended, each
    holding the view id it was called with, until the loop settles the
    window request of one of them and runs the rest of that call. *)
Record Loop := {
  service : State;
  suspended : list string
}.

Definition loop0 : Loop := {| service := initial; suspended := [] |}.

Inductive Action :=
| CallOpen (options : IFloatingPanelOpenOptions)
| Settle (i : nat) (outcome : OpenOutcome)
| CallClose (panelId : string)
| CallDock (panelId : string) (location : ViewContainerLocation)
| Unload (w : nat).

Definition step (a : Action) (l : Loop) : Loop :=
  match a with
  | CallOpen options =>
      match openFloatingPanel_begin options (service l) with
      | (Return _, s1) => {| service := s1; suspended := suspended l |}
      | (Await v, s1) => {| service := s1; suspended := suspended l ++ [v] |}
      end
  | Settle i outcome =>
      match suspended l !! i with
      | Some v =>
          {| service := (openFloatingPanel_resume v outcome (service l)).2;
             suspended := delete i (suspended l) |}
      | None => l
      end
  | CallClose panelId =>
      {| service := closeFloatingPanel panelId (service l); suspended := suspended l |}
  | CallDock panelId location =>
      {| service := dockFloatingPanel panelId location (service l);
         suspended := suspended l |}
  | Unload w =>
      {| service := window_unload w (service l); suspended := suspended l |}
  end.

Definition run (acts : list Action) (l : Loop) : Loop :=
  foldl (λ acc a, step a acc) l acts.

(** ** Observations on the record of calls *)

Definition isDidOpen (e : Effect) : option FloatingPanel :=
  match e with DidOpenFloatingPanel p => Some p | _ => None end.

Definition isWindowOpen (e : Effect) : option IAuxiliaryWindowOpenOptions :=
  match e with WindowOpen o => Some o | _ => None end.

Definition isMove (e : Effect)
  : option (IViewDescriptor * ViewContainerLocation * string) :=
  match e with MoveViewToLocation d l r => Some (d, l, r) | _ => None end.

(** The panels [onDidOpenFloatingPanel] fired for, oldest first. *)
Definition opened (s : State) : list FloatingPanel :=
  omap isDidOpen (effects s).

(** The requests that reached the Window Provider. *)
Definition windowRequests (s : State) : list IAuxiliaryWindowOpenOptions :=
  omap isWindowOpen (effects s).

(** The relocations asked of the View Registry. *)
Definition relocations (s : State)
  : list (IViewDescriptor * ViewContainerLocation * string) :=
  omap isMove (effects s).

(** How many times [onDidCloseFloatingPanel] fired for [p]. *)
Definition closeCount (p : FloatingPanel) (s : State) : nat :=
  length (filter (λ e, e = DidCloseFloatingPanel p) (effects s)).

(** The phase of the window a panel owns. *)
Definition windowPhase (w : nat) (s : State) : option WindowPhase :=
  phase <$> windows s !! w.

Definition windowSync (w : nat) (s : State) : option bool :=
  syncUnload <$> windows s !! w.

(** ** Invariants *)

(** [p] carries an id the counter has already handed out. *)
Definition issued (s : State) (p : FloatingPanel) : Prop :=
  ∃ n, n < idCounter s ∧ panel_id p = make_id n.

(** What every state of the event loop satisfies, whatever the
    interleaving: subscriptions sit on the subscriber's own window, a window
    has at most one subscriber, a close event is only ever fired from the
    unload notification of the panel's window, window handles and panel ids
    are fresh, and a stored panel is still subscribed while its window is
    live. *)
Record WellFormed (s : State) : Prop := {
  wf_listeners : ∀ w win p,
    windows s !! w = Some win → p ∈ onUnload win → window p = w;
  wf_single : ∀ w win,
    windows s !! w = Some win → length (onUnload win) ≤ 1;
  wf_closed : ∀ p,
    DidCloseFloatingPanel p ∈ effects s →
    windowPhase (window p) s = Some Unloaded;
  wf_fresh : ∀ w, nextWindow s ≤ w → windows s !! w = None;
  wf_panels : ∀ k p,
    floatingPanels s !! k = Some p →
    k = panel_id p ∧ issued s p ∧
    ∃ win, windows s !! window p = Some win ∧
           (phase win = Live → p ∈ onUnload win);
  wf_byView : ∀ v p,
    floatingPanelsByViewId s !! v = Some p → v = viewId p ∧ issued s p;
  wf_opened : panel_id <$> opened s = make_id <$> seq 0 (idCounter s)
}.

(** The consistency of the two maps: the same panels are reachable both
    ways, each under its own key. *)
Record Consistent (s : State) : Prop := {
  byId_indexed : ∀ k p,
    floatingPanels s !! k = Some p →
    panel_id p = k ∧ floatingPanelsByViewId s !! viewId p = Some p;
  byViewId_stored : ∀ v p,
    floatingPanelsByViewId s !! v = Some p →
    viewId p = v ∧ floatingPanels s !! panel_id p = Some p
}.

(** No two entries of either map hold panels with the same view id. *)
Definition UniqueViews (s : State) : Prop :=
  (∀ k1 k2 p1 p2,
     floatingPanels s !! k1 = Some p1 → floatingPanels s !! k2 = Some p2 →
     viewId p1 = viewId p2 → k1 = k2) ∧
  (∀ v1 v2 p1 p2,
     floatingPanelsByViewId s !! v1 = Some p1 →
     floatingPanelsByViewId s !! v2 = Some p2 →
     viewId p1 = viewId p2 → v1 = v2).

(** The invariant of sequential use: the maps are consistent, and every
    subscriber of a window that has not unloaded yet is a stored panel. *)
Record Inv (s : State) : Prop := {
  inv_wf : WellFormed s;
  inv_consistent : Consistent s;
  inv_subscribed : ∀ w win p,
    windows s !! w = Some win → phase win ≠ Unloaded → p ∈ onUnload win →
    floatingPanels s !! panel_id p = Some p
}.

(** A panel whose lifetime is over: its window has unloaded and neither map
    holds it. *)
Record Closed (p : FloatingPanel) (s : State) : Prop := {
  closed_phase : windowPhase (window p) s = Some Unloaded;
  closed_issued : issued s p;
  closed_byId : ∀ k, floatingPanels s !! k ≠ Some p;
  closed_byViewId : ∀ v, floatingPanelsByViewId s !! v ≠ Some p
}.

(** The three ways a panel's lifetime ends. *)
Inductive Closure :=
| ByClose
| ByDock (location : ViewContainerLocation)
| ByUnload.

Definition closureAction (c : Closure) (p : FloatingPanel) : Action :=
  match c with
  | ByClose => CallClose (panel_id p)
  | ByDock location => CallDock (panel_id p) location
  | ByUnload => Unload (window p)
  end.

(** Marking a window's phase, the one change [window_unload] and
    [window_dispose] make to the window store. *)
Definition mark (ph : WindowPhase) (w : nat) (s : State) : State :=
  with_windows (alter (setPhase ph) w (windows s)) s.

(** ** A second view for the scenario: [search], which may move. *)

Definition search : IViewDescriptor :=
  {| descriptor_id := "search"; name := LocalizedName "Search";
     canMoveView := true |}.

Definition views (v : string) : option IViewDescriptor :=
  if decide (v = "explorer") then Some explorer
  else if decide (v = "search") then Some search
  else None.

Definition floatSearch : IFloatingPanelOpenOptions :=
  {| opt_viewId := "search"; opt_title := Some "Search";
     opt_bounds := Some {| width := 640; height := 480 |} |}.

Definition searchPanel : FloatingPanel :=
  {| panel_id := "floating-panel-0"; viewId := "search";
     window := 0; container := 0 |}.

(** The same views under other names and with the opposite permission to
    move. *)
Definition renamedViews (v : string) : option IViewDescriptor :=
  (λ d, {| descriptor_id := descriptor_id d; name := PlainName "Renamed";
           canMoveView := negb (canMoveView d) |}) <$> views v.

(** The state after [search] has been floated once. *)
Definition searchFloating (sync : bool) : State :=
  (openFloatingPanel floatSearch (Resolves sync) initial).2.

(** ** DockViewToSidebarAction.run, DockViewToPanelAction.run and
    DockViewToAuxiliaryBarAction.run

    The three [run] methods have the same body and differ in the location
    they name. *)
Definition dockViewAction_run (location : ViewContainerLocation)
    (arg : option string) (s : State) : State :=
  if negb (truthy arg) then s
  else
    match arg with
    | None => s
    | Some v =>
        (* If floating, dock it *)
        match getFloatingPanelByViewId v s with
        | Some floatingPanel =>
            dockFloatingPanel (panel_id floatingPanel) location s
        | None =>
            (* Otherwise move via view descriptor service *)
            match getViewDescriptorById v with
            | Some viewDescriptor =>
                if canMoveView viewDescriptor
                then emit (MoveViewToLocation viewDescriptor location "dock") s
                else s
            | None => s
            end
        end
    end.

Definition DockViewToSidebarAction_run : option string → State → State :=
  dockViewAction_run Sidebar.

Definition DockViewToPanelAction_run : option string → State → State :=
  dockViewAction_run Panel.

Definition DockViewToAuxiliaryBarAction_run : option string → State → State :=
  dockViewAction_run AuxiliaryBar.

(** The four registered actions, as a user invokes them with an optional
    view id. The float command awaits a window, whose outcome comes with
    it. *)
Inductive Command :=
| FloatView (outcome : OpenOutcome)
| DockViewToSidebar
| DockViewToPanel
| DockViewToAuxiliaryBar.

Definition runCommand (c : Command) (arg : option string) (s : State) : State :=
  match c with
  | FloatView outcome => FloatViewAction_run arg outcome s
  | DockViewToSidebar => DockViewToSidebarAction_run arg s
  | DockViewToPanel => DockViewToPanelAction_run arg s
  | DockViewToAuxiliaryBar => DockViewToAuxiliaryBarAction_run arg s
  end.

(** The location a dock command names. *)
Definition dockTarget (c : Command) : option ViewContainerLocation :=
  match c with
  | FloatView _ => None
  | DockViewToSidebar => Some Sidebar
  | DockViewToPanel => Some Panel
  | DockViewToAuxiliaryBar => Some AuxiliaryBar
  end.

(** ** More invariants *)

(** The record of events agrees with the state: subscribers and stored
    panels are panels that were opened, and a panel a close event was fired
    for is closed for good, with exactly one such event. *)
Record Traced (s : State) : Prop := {
  tr_listeners : ∀ w win p,
    windows s !! w = Some win → p ∈ onUnload win →
    issued s p ∧ p ∈ opened s;
  tr_stored : ∀ k p, floatingPanels s !! k = Some p → p ∈ opened s;
  tr_storedByView : ∀ v p,
    floatingPanelsByViewId s !! v = Some p → p ∈ opened s;
  tr_closed : ∀ p,
    DidCloseFloatingPanel p ∈ effects s →
    Closed p s ∧ p ∈ opened s ∧ closeCount p s = 1
}.

(** A schedule in which no call of [openFloatingPanel] starts for a view
    while another call for the same view is suspended. *)
Definition admissible (a : Action) (l : Loop) : bool :=
  match a with
  | CallOpen options => bool_decide (opt_viewId options ∉ suspended l)
  | _ => true
  end.

Fixpoint disjointOpens (acts : list Action) (l : Loop) : bool :=
  match acts with
  | [] => true
  | a :: acts => admissible a l && disjointOpens acts (step a l)
  end.

(** What such schedules keep: the invariant of sequential use, and no
    suspended call waits for a view that is floating or that another
    suspended call waits for. *)
Record Quiet (l : Loop) : Prop := {
  quiet_inv : Inv (service l);
  quiet_nodup : NoDup (suspended l);
  quiet_absent : ∀ v,
    v ∈ suspended l → floatingPanelsByViewId (service l) !! v = None
}.

(** ** Basic facts *)

Lemma make_id_inj n m : make_id n = make_id m → n = m.
Proof.
  unfold make_id. intros H.
  apply (inj (String.app "floating-panel-")) in H.
  by apply (inj pretty) in H.
Qed.

Lemma issued_mono s s' p :
  idCounter s ≤ idCounter s' → issued s p → issued s' p.
Proof. intros Hle (n & Hn & Hid). exists n. split; [lia | done]. Qed.

Lemma issued_fresh s p : issued s p → panel_id p ≠ make_id (idCounter s).
Proof.
  intros (n & Hn & Hid) Heq. rewrite Hid in Heq.
  apply make_id_inj in Heq. lia.
Qed.

Lemma closeCount_emit p e s :
  closeCount p (emit e s) =
  closeCount p s + (if decide (e = DidCloseFloatingPanel p) then 1 else 0).
Proof.
  unfold closeCount, emit. simpl. rewrite filter_app, length_app. f_equal.
  rewrite filter_cons, filter_nil. by case_decide.
Qed.

Lemma closeCount_zero p s :
  DidCloseFloatingPanel p ∉ effects s → closeCount p s = 0.
Proof.
  unfold closeCount. intros Hnot.
  destruct (filter _ (effects s)) as [|e l] eqn:Hf; [done|].
  assert (He : e ∈ filter (λ e, e = DidCloseFloatingPanel p) (effects s))
    by (rewrite Hf; left).
  apply list_elem_of_filter in He as [-> He]. done.
Qed.

Lemma windowPhase_mark ph w w' s :
  windowPhase w' (mark ph w s) =
  if decide (w = w') then (λ _, ph) <$> windowPhase w' s else windowPhase w' s.
Proof.
  unfold windowPhase, mark. simpl. rewrite lookup_alter.
  case_decide; [|done]. subst. by destruct (windows s !! w').
Qed.

(** ** Well-formedness is kept by every elementary change *)

Lemma wf_emit e s :
  WellFormed s →
  (∀ p, e = DidCloseFloatingPanel p → windowPhase (window p) s = Some Unloaded) →
  isDidOpen e = None →
  WellFormed (emit e s).
Proof.
  intros [H1 H2 H3 H4 H5 H6 H7] Hclose Hopen.
  split; simpl; try done.
  - intros p [Hin | Hin%list_elem_of_singleton]%elem_of_app.
    + by apply H3.
    + by apply Hclose.
  - unfold opened. simpl. rewrite omap_app. simpl. rewrite Hopen. simpl.
    by rewrite app_nil_r.
Qed.

Lemma wf_mark ph w s :
  WellFormed s → ph ≠ Live →
  (windowPhase w s = Some Unloaded → ph = Unloaded) →
  WellFormed (mark ph w s).
Proof.
  intros [H1 H2 H3 H4 H5 H6 H7] Hlive Hback.
  split; simpl; try done.
  - intros w' win p [(-> & x & Hx & ->) | (Hne & Hx)]%lookup_alter_Some Hin;
      simpl in *; eauto.
  - intros w' win [(-> & x & Hx & ->) | (Hne & Hx)]%lookup_alter_Some;
      simpl in *; eauto.
  - intros p Hin. specialize (H3 p Hin).
    fold (mark ph w s). rewrite windowPhase_mark. case_decide; [|done].
    subst. rewrite H3. simpl. by rewrite Hback.
  - intros w' Hle. apply lookup_alter_None. by apply H4.
  - intros k p Hk. destruct (H5 k p Hk) as (Hid & Hiss & win & Hwin & Hsub).
    split; [done|]. split; [done|].
    destruct (decide (w = window p)) as [->|Hne].
    + exists (setPhase ph win). split.
      * rewrite lookup_alter_eq, Hwin. done.
      * simpl. intros ->. done.
    + exists win. split; [|done]. by rewrite lookup_alter_ne.
Qed.

Lemma wf_handlePanelClosed p s :
  WellFormed s → windowPhase (window p) s = Some Unloaded →
  WellFormed (handlePanelClosed p s).
Proof.
  intros [H1 H2 H3 H4 H5 H6 H7] Hph.
  split; simpl; try done.
  - intros q [Hin | Hin%list_elem_of_singleton]%elem_of_app.
    + by apply H3.
    + by simplify_eq.
  - intros k q [Hne Hk]%lookup_delete_Some. by apply H5.
  - intros v q [Hne Hv]%lookup_delete_Some. by apply H6.
  - unfold opened. simpl. rewrite omap_app. simpl. by rewrite app_nil_r.
Qed.

Lemma wf_Disposable_dispose p s :
  WellFormed s → windowPhase (window p) s ≠ Some Live →
  WellFormed (Disposable_dispose p s).
Proof.
  intros [H1 H2 H3 H4 H5 H6 H7] Hph.
  split; simpl; try done.
  - intros w' win q [(<- & x & Hx & ->) | (Hne & Hx)]%lookup_alter_Some Hin;
      simpl in *; [|by eauto].
    apply list_elem_of_filter in Hin as [_ Hin]. by eapply H1.
  - intros w' win [(<- & x & Hx & ->) | (Hne & Hx)]%lookup_alter_Some;
      simpl in *; [|by eauto].
    etrans; [apply length_filter|]. by eapply H2.
  - intros q Hin. specialize (H3 q Hin). unfold windowPhase in *. simpl.
    rewrite lookup_alter. destruct (decide (window p = window q)) as [Heq|]; [|done].
    rewrite <- Heq in H3. by destruct (windows s !! window p).
  - intros w' Hle. apply lookup_alter_None. by apply H4.
  - intros k q Hk. destruct (H5 k q Hk) as (Hid & Hiss & win & Hwin & Hsub).
    split; [done|]. split; [done|].
    destruct (decide (window p = window q)) as [Heq|Hne].
    + eexists. split.
      * rewrite lookup_alter, decide_True, Heq, Hwin by done. done.
      * simpl. intros Hlive. exfalso. apply Hph.
        unfold windowPhase. by rewrite Heq, Hwin, <- Hlive.
    + exists win. split; [|done]. by rewrite lookup_alter_ne.
Qed.

(** ** What the unload notification and the destroy operation do *)

Lemma window_unload_cases w s :
  WellFormed s →
  (window_unload w s = s ∧ windowPhase w s ≠ Some Live ∧
   windowPhase w s ≠ Some Closing) ∨
  (∃ win, windows s !! w = Some win ∧ phase win ≠ Unloaded ∧
     ((onUnload win = [] ∧ window_unload w s = mark Unloaded w s) ∨
      (∃ p, onUnload win = [p] ∧ window p = w ∧
            window_unload w s = handlePanelClosed p (mark Unloaded w s)))).
Proof.
  intros Hwf. unfold window_unload, windowPhase.
  destruct (windows s !! w) as [win|] eqn:Hwin; [|by left].
  destruct (decide (phase win = Unloaded)) as [Hu|Hu].
  { left. simpl. rewrite Hu. done. }
  right. exists win. split; [done|]. split; [done|].
  assert (Hfire : ∀ s1, windows s1 !! w = Some (setPhase Unloaded win) →
            fireUnload w s1 = foldl (λ acc p, handlePanelClosed p acc) s1 (onUnload win)).
  { intros s1 Hs1. unfold fireUnload. by rewrite Hs1. }
  fold (mark Unloaded w s).
  assert (Hm : windows (mark Unloaded w s) !! w = Some (setPhase Unloaded win)).
  { unfold mark. simpl. by rewrite lookup_alter_eq, Hwin. }
  pose proof (wf_single s Hwf w win Hwin) as Hlen.
  pose proof (wf_listeners s Hwf w win) as Hown.
  destruct (onUnload win) as [|p [|q l]] eqn:Hl; simpl in Hlen; [| |lia].
  - left. split; [done|].
    destruct (phase win); try done; by rewrite Hfire.
  - right. exists p. split; [done|]. split; [apply Hown; [done|left]|].
    destruct (phase win); try done; by rewrite Hfire.
Qed.

Lemma window_dispose_cases w s :
  (window_dispose w s = s ∧ windowPhase w s ≠ Some Live) ∨
  (windowPhase w s = Some Live ∧ windowSync w s = Some true ∧
   window_dispose w s = window_unload w s) ∨
  (windowPhase w s = Some Live ∧ windowSync w s = Some false ∧
   window_dispose w s = mark Closing w s).
Proof.
  unfold window_dispose, windowPhase, windowSync.
  destruct (windows s !! w) as [win|] eqn:Hwin; simpl; [|by left].
  destruct (phase win) eqn:Hph; [|by left|by left].
  destruct (syncUnload win); right; [left|right]; done.
Qed.

Lemma wf_window_unload w s : WellFormed s → WellFormed (window_unload w s).
Proof.
  intros Hwf.
  assert (Hm : WellFormed (mark Unloaded w s)) by (by apply wf_mark).
  destruct (window_unload_cases w s Hwf)
    as [(-> & _) | (win & Hwin & Hph & [(_ & ->) | (p & _ & Hp & ->)])]; try done.
  apply wf_handlePanelClosed; [done|].
  rewrite windowPhase_mark, decide_True by done.
  unfold windowPhase. by rewrite Hp, Hwin.
Qed.

Lemma windowPhase_handlePanelClosed w p s :
  windowPhase w (handlePanelClosed p s) = windowPhase w s.
Proof. done. Qed.

Lemma windowPhase_window_unload w s :
  WellFormed s → is_Some (windows s !! w) →
  windowPhase w (window_unload w s) = Some Unloaded.
Proof.
  intros Hwf [win Hwin].
  destruct (window_unload_cases w s Hwf)
    as [(-> & Hl & Hc) | (win' & Hwin' & Hph & [(_ & ->) | (p & _ & Hp & ->)])].
  - unfold windowPhase in *. rewrite Hwin in *. simpl in *.
    by destruct (phase win).
  - rewrite windowPhase_mark, decide_True by done.
    unfold windowPhase. by rewrite Hwin'.
  - rewrite windowPhase_handlePanelClosed, windowPhase_mark, decide_True by done.
    unfold windowPhase. by rewrite Hwin'.
Qed.

Lemma windowPhase_window_dispose w s :
  WellFormed s → windowPhase w (window_dispose w s) ≠ Some Live.
Proof.
  intros Hwf.
  destruct (window_dispose_cases w s) as [(-> & H) | [(Hl & _ & ->) | (Hl & _ & ->)]].
  - done.
  - rewrite windowPhase_window_unload; [done|done|].
    unfold windowPhase in Hl. by destruct (windows s !! w).
  - rewrite windowPhase_mark, decide_True, Hl by done. done.
Qed.

Lemma wf_window_dispose w s : WellFormed s → WellFormed (window_dispose w s).
Proof.
  intros Hwf.
  destruct (window_dispose_cases w s) as [(-> & H) | [(Hl & _ & ->) | (Hl & _ & ->)]].
  - done.
  - by apply wf_window_unload.
  - apply wf_mark; [done|done|]. by rewrite Hl.
Qed.

Lemma wf_dispose p s : WellFormed s → WellFormed (dispose p s).
Proof.
  intros Hwf. apply wf_Disposable_dispose.
  - by apply wf_window_dispose.
  - by apply windowPhase_window_dispose.
Qed.

Lemma wf_closeFloatingPanel panelId s :
  WellFormed s → WellFormed (closeFloatingPanel panelId s).
Proof.
  intros Hwf. unfold closeFloatingPanel, close.
  destruct (floatingPanels s !! panelId); [by apply wf_dispose | done].
Qed.

Lemma wf_dockFloatingPanel panelId location s :
  WellFormed s → WellFormed (dockFloatingPanel panelId location s).
Proof.
  intros Hwf. unfold dockFloatingPanel, close.
  destruct (floatingPanels s !! panelId) as [panel|]; [|done].
  apply wf_dispose.
  destruct (getViewDescriptorById (viewId panel)) as [d|]; [|done].
  destruct (canMoveView d); [|done].
  by apply wf_emit.
Qed.

(** ** Opening keeps well-formedness *)

Lemma wf_initial : WellFormed initial.
Proof.
  split; simpl; try done.
  - intros p Hin. by apply elem_of_nil in Hin.
Qed.

Lemma wf_openFloatingPanel_begin options s :
  WellFormed s → WellFormed (openFloatingPanel_begin options s).2.
Proof.
  intros Hwf. unfold openFloatingPanel_begin.
  destruct (floatingPanelsByViewId s !! opt_viewId options); simpl;
    by apply wf_emit.
Qed.

Lemma wf_openFloatingPanel_resume v outcome s :
  WellFormed s → WellFormed (openFloatingPanel_resume v outcome s).2.
Proof.
  intros [H1 H2 H3 H4 H5 H6 H7].
  destruct outcome as [e|sync]; [by split|].
  unfold openFloatingPanel_resume. simpl.
  rewrite lookup_insert_eq. simpl.
  set (w := nextWindow s).
  set (panel := {| panel_id := make_id (idCounter s); viewId := v;
                   window := w; container := w |}).
  assert (Hw : windows s !! w = None) by (by apply H4).
  split; [simpl .. |].
  - intros w' win p [(<- & x & Hx & ->) | (Hne & Hx)]%lookup_alter_Some Hin.
    + rewrite lookup_insert_eq in Hx. simplify_eq. simpl in Hin.
      apply list_elem_of_singleton in Hin. by subst.
    + rewrite lookup_insert_ne in Hx by done. by eapply H1.
  - intros w' win [(<- & x & Hx & ->) | (Hne & Hx)]%lookup_alter_Some.
    + rewrite lookup_insert_eq in Hx. simplify_eq. simpl. lia.
    + rewrite lookup_insert_ne in Hx by done. by eapply H2.
  - intros p [Hin | Hin%list_elem_of_singleton]%elem_of_app; [|done].
    specialize (H3 p Hin). unfold windowPhase in *. simpl.
    destruct (decide (w = window p)) as [Heq|Hne].
    + rewrite <- Heq, Hw in H3. done.
    + by rewrite lookup_alter_ne, lookup_insert_ne.
  - intros w' Hle. apply lookup_alter_None.
    assert (Hne : w ≠ w') by lia.
    rewrite lookup_insert_ne by done. apply H4, Nat.lt_le_incl, Hle.
  - intros k p [[<- <-] | [Hne Hk]]%lookup_insert_Some.
    + split; [done|]. split.
      * exists (idCounter s). simpl. split; [lia|done].
      * eexists. split.
        -- simpl. rewrite lookup_alter_eq, lookup_insert_eq. done.
        -- simpl. intros _. by left.
    + destruct (H5 k p Hk) as (Hid & Hiss & win & Hwin & Hsub).
      split; [done|]. split.
      * eapply issued_mono; [|done]. simpl. lia.
      * exists win. split; [|done].
        assert (w ≠ window p) by (intros Heq; rewrite <- Heq, Hw in Hwin; done).
        by rewrite lookup_alter_ne, lookup_insert_ne.
  - intros v' p [[<- <-] | [Hne Hv]]%lookup_insert_Some.
    + split; [done|]. exists (idCounter s). simpl. split; [lia|done].
    + destruct (H6 v' p Hv) as [Hv' Hiss]. split; [done|].
      eapply issued_mono; [|done]. simpl. lia.
  - unfold opened in *. simpl (idCounter _). simpl (effects _).
    by rewrite omap_app, fmap_app, H7, seq_S, fmap_app.
Qed.

Lemma wf_step a l : WellFormed (service l) → WellFormed (service (step a l)).
Proof.
  intros Hwf. destruct a as [o|i out|k|k loc|w]; simpl.
  - pose proof (wf_openFloatingPanel_begin o _ Hwf) as H.
    by destruct (openFloatingPanel_begin o (service l)) as [[p|v] s1].
  - destruct (suspended l !! i); [|done]. simpl.
    by apply wf_openFloatingPanel_resume.
  - by apply wf_closeFloatingPanel.
  - by apply wf_dockFloatingPanel.
  - by apply wf_window_unload.
Qed.

Lemma wf_run acts l : WellFormed (service l) → WellFormed (service (run acts l)).
Proof.
  revert l. induction acts as [|a acts IH]; intros l Hwf; [done|].
  simpl. apply IH. by apply wf_step.
Qed.

Lemma wf_reachable acts : WellFormed (service (run acts loop0)).
Proof. apply wf_run, wf_initial. Qed.

Lemma openFloatingPanel_resume_creates v sync s :
  let panel := {| panel_id := make_id (idCounter s); viewId := v;
                  window := nextWindow s; container := nextWindow s |} in
  let r := openFloatingPanel_resume v (Resolves sync) s in
  r.1 = inr panel ∧
  idCounter r.2 = S (idCounter s) ∧
  opened r.2 = opened s ++ [panel] ∧
  floatingPanels r.2 = <[panel_id panel := panel]> (floatingPanels s) ∧
  floatingPanelsByViewId r.2 = <[v := panel]> (floatingPanelsByViewId s).
Proof.
  unfold openFloatingPanel_resume, opened. simpl.
  rewrite lookup_insert_eq. simpl. rewrite omap_app. done.
Qed.

(** ** Once closed, always closed, and no close event is fired again *)

Lemma closed_emit p e s :
  Closed p s → e ≠ DidCloseFloatingPanel p →
  Closed p (emit e s) ∧ closeCount p (emit e s) = closeCount p s.
Proof.
  intros [H1 H2 H3 H4] He. split; [by split|].
  rewrite closeCount_emit, decide_False by done. lia.
Qed.

Lemma closed_mark p ph w s :
  Closed p s → (w = window p → ph = Unloaded) →
  Closed p (mark ph w s) ∧ closeCount p (mark ph w s) = closeCount p s.
Proof.
  intros [H1 H2 H3 H4] Hph. split; [|done]. split; try done.
  rewrite windowPhase_mark. case_decide; [|done].
  rewrite H1. simpl. by rewrite Hph.
Qed.

Lemma closed_handlePanelClosed p q s :
  Closed p s → q ≠ p →
  Closed p (handlePanelClosed q s) ∧
  closeCount p (handlePanelClosed q s) = closeCount p s.
Proof.
  intros [H1 H2 H3 H4] Hq. split.
  - split; simpl; try done.
    + intros k [_ Hk]%lookup_delete_Some. by eapply H3.
    + intros v [_ Hv]%lookup_delete_Some. by eapply H4.
  - unfold handlePanelClosed. rewrite closeCount_emit, decide_False.
    + unfold closeCount. simpl. lia.
    + intros Heq. by simplify_eq.
Qed.

Lemma closed_Disposable_dispose p q s :
  Closed p s →
  Closed p (Disposable_dispose q s) ∧
  closeCount p (Disposable_dispose q s) = closeCount p s.
Proof.
  intros [H1 H2 H3 H4]. split; [|done]. split; try done.
  unfold windowPhase in *. simpl. rewrite lookup_alter.
  destruct (decide (window q = window p)) as [Heq|]; [|done].
  rewrite Heq. by destruct (windows s !! window p).
Qed.

Lemma closed_window_unload p w s :
  WellFormed s → Closed p s →
  Closed p (window_unload w s) ∧
  closeCount p (window_unload w s) = closeCount p s.
Proof.
  intros Hwf Hc.
  destruct (window_unload_cases w s Hwf)
    as [(-> & _) | (win & Hwin & Hph & Hcases)]; [done|].
  assert (Hw : w ≠ window p).
  { intros ->. pose proof (closed_phase p s Hc) as Hp.
    unfold windowPhase in Hp. rewrite Hwin in Hp. simpl in Hp. by simplify_eq. }
  destruct (closed_mark p Unloaded w s Hc) as [Hc1 Hn1]; [done|].
  destruct Hcases as [(_ & ->) | (q & _ & Hq & ->)]; [done|].
  destruct (closed_handlePanelClosed p q (mark Unloaded w s) Hc1) as [Hc2 Hn2].
  { intros ->. done. }
  split; [done|]. by rewrite Hn2.
Qed.

Lemma closed_window_dispose p w s :
  WellFormed s → Closed p s →
  Closed p (window_dispose w s) ∧
  closeCount p (window_dispose w s) = closeCount p s.
Proof.
  intros Hwf Hc.
  destruct (window_dispose_cases w s) as [(-> & H) | [(Hl & _ & ->) | (Hl & _ & ->)]].
  - done.
  - by apply closed_window_unload.
  - apply closed_mark; [done|]. intros ->.
    rewrite (closed_phase p s Hc) in Hl. done.
Qed.

Lemma closed_dispose p q s :
  WellFormed s → Closed p s →
  Closed p (dispose q s) ∧ closeCount p (dispose q s) = closeCount p s.
Proof.
  intros Hwf Hc. unfold dispose.
  destruct (closed_window_dispose p (window q) s Hwf Hc) as [Hc1 Hn1].
  destruct (closed_Disposable_dispose p q _ Hc1) as [Hc2 Hn2].
  split; [done|]. by rewrite Hn2.
Qed.

Lemma closed_openFloatingPanel_resume p v outcome s :
  WellFormed s → Closed p s →
  Closed p (openFloatingPanel_resume v outcome s).2 ∧
  closeCount p (openFloatingPanel_resume v outcome s).2 = closeCount p s.
Proof.
  intros Hwf [H1 H2 H3 H4].
  destruct outcome as [e|sync]; [by split|].
  destruct (openFloatingPanel_resume_creates v sync s)
    as (_ & Hcnt & _ & HbyId & HbyView).
  pose proof (issued_fresh s p H2) as Hfresh.
  assert (Hw : nextWindow s ≠ window p).
  { intros Heq. unfold windowPhase in H1.
    rewrite <- Heq, (wf_fresh s Hwf) in H1; done. }
  split.
  - split.
    + unfold windowPhase in *. unfold openFloatingPanel_resume. simpl.
      rewrite lookup_insert_eq. simpl.
      by rewrite lookup_alter_ne, lookup_insert_ne.
    + eapply issued_mono; [|done]. rewrite Hcnt. lia.
    + rewrite HbyId. intros k [[_ Hk] | [_ Hk]]%lookup_insert_Some.
      * subst p. done.
      * by eapply H3.
    + rewrite HbyView. intros k [[_ Hk] | [_ Hk]]%lookup_insert_Some.
      * subst p. done.
      * by eapply H4.
  - unfold openFloatingPanel_resume. simpl. rewrite lookup_insert_eq. simpl.
    rewrite closeCount_emit, decide_False by done. unfold closeCount. simpl. lia.
Qed.

Lemma closed_step p a l :
  WellFormed (service l) → Closed p (service l) →
  Closed p (service (step a l)) ∧
  closeCount p (service (step a l)) = closeCount p (service l).
Proof.
  intros Hwf Hc. destruct a as [o|i out|k|k loc|w]; simpl.
  - unfold openFloatingPanel_begin.
    destruct (floatingPanelsByViewId (service l) !! opt_viewId o); simpl;
      by apply closed_emit.
  - destruct (suspended l !! i); [|done]. simpl.
    by apply closed_openFloatingPanel_resume.
  - unfold closeFloatingPanel, close.
    destruct (floatingPanels (service l) !! k); [|done].
    by apply closed_dispose.
  - unfold dockFloatingPanel, close.
    destruct (floatingPanels (service l) !! k) as [panel|]; [|done].
    destruct (getViewDescriptorById (viewId panel)) as [d|];
      [|by apply closed_dispose].
    destruct (canMoveView d); [|by apply closed_dispose].
    destruct (closed_emit p (MoveViewToLocation d loc "dock") _ Hc) as [Hc1 Hn1];
      [done|].
    assert (Hwf1 : WellFormed (emit (MoveViewToLocation d loc "dock") (service l)))
      by (by apply wf_emit).
    destruct (closed_dispose p panel _ Hwf1 Hc1) as [Hc2 Hn2].
    split; [done|]. by rewrite Hn2.
  - by apply closed_window_unload.
Qed.

Lemma closed_run p acts l :
  WellFormed (service l) → Closed p (service l) →
  Closed p (service (run acts l)) ∧
  closeCount p (service (run acts l)) = closeCount p (service l).
Proof.
  revert l. induction acts as [|a acts IH]; intros l Hwf Hc; [done|].
  simpl. destruct (closed_step p a l Hwf Hc) as [Hc1 Hn1].
  destruct (IH (step a l) (wf_step a l Hwf) Hc1) as [Hc2 Hn2].
  split; [done|]. by rewrite Hn2.
Qed.

(** ** Closing a panel whose window is live *)

Lemma window_unload_open_panel p s :
  WellFormed s →
  floatingPanels s !! panel_id p = Some p →
  windowPhase (window p) s = Some Live →
  window_unload (window p) s = handlePanelClosed p (mark Unloaded (window p) s).
Proof.
  intros Hwf Hp Hlive.
  destruct (wf_panels s Hwf _ _ Hp) as (_ & _ & win & Hwin & Hsub).
  unfold windowPhase in Hlive. rewrite Hwin in Hlive. simpl in Hlive.
  simplify_eq. specialize (Hsub Hlive).
  destruct (window_unload_cases (window p) s Hwf)
    as [(_ & Hl & _) | (win' & Hwin' & _ & Hcases)].
  { exfalso. apply Hl. unfold windowPhase. by rewrite Hwin, <- Hlive. }
  simplify_eq. destruct Hcases as [(Hnil & _) | (q & Hq & _ & ->)].
  - rewrite Hnil in Hsub. by apply elem_of_nil in Hsub.
  - rewrite Hq in Hsub. apply list_elem_of_singleton in Hsub. by subst.
Qed.

Lemma closeCount_open_panel p s :
  WellFormed s → windowPhase (window p) s = Some Live → closeCount p s = 0.
Proof.
  intros Hwf Hlive. apply closeCount_zero. intros Hin.
  rewrite (wf_closed s Hwf p Hin) in Hlive. done.
Qed.

Lemma closed_after_unload p s :
  WellFormed s →
  floatingPanels s !! panel_id p = Some p →
  windowPhase (window p) s = Some Live →
  let s' := handlePanelClosed p (mark Unloaded (window p) s) in
  Closed p s' ∧ closeCount p s' = 1 ∧
  floatingPanels s' = delete (panel_id p) (floatingPanels s) ∧
  floatingPanelsByViewId s' = delete (viewId p) (floatingPanelsByViewId s).
Proof.
  intros Hwf Hp Hlive s'.
  destruct (wf_panels s Hwf _ _ Hp) as (_ & Hiss & _).
  split; [split|split; [|done]].
  - unfold s'. rewrite windowPhase_handlePanelClosed, windowPhase_mark.
    rewrite decide_True, Hlive by done. done.
  - done.
  - intros k. simpl. intros [Hne Hk]%lookup_delete_Some.
    by destruct (wf_panels s Hwf _ _ Hk) as (-> & _).
  - intros v. simpl. intros [Hne Hv]%lookup_delete_Some.
    by destruct (wf_byView s Hwf _ _ Hv) as (-> & _).
  - unfold s', handlePanelClosed. rewrite closeCount_emit, decide_True by done.
    change (closeCount p s + 1 = 1).
    by rewrite (closeCount_open_panel p s Hwf Hlive).
Qed.

Lemma dispose_open_panel p s :
  WellFormed s →
  floatingPanels s !! panel_id p = Some p →
  windowPhase (window p) s = Some Live →
  windowSync (window p) s = Some true →
  dispose p s =
  Disposable_dispose p (handlePanelClosed p (mark Unloaded (window p) s)).
Proof.
  intros Hwf Hp Hlive Hsync. unfold dispose. f_equal.
  destruct (window_dispose_cases (window p) s)
    as [(_ & H) | [(_ & _ & ->) | (_ & Hs & _)]].
  - done.
  - by apply window_unload_open_panel.
  - rewrite Hsync in Hs. done.
Qed.

Lemma closed_after_dispose p s :
  WellFormed s →
  floatingPanels s !! panel_id p = Some p →
  windowPhase (window p) s = Some Live →
  windowSync (window p) s = Some true →
  Closed p (dispose p s) ∧ closeCount p (dispose p s) = 1 ∧
  floatingPanels (dispose p s) = delete (panel_id p) (floatingPanels s) ∧
  floatingPanelsByViewId (dispose p s) =
    delete (viewId p) (floatingPanelsByViewId s).
Proof.
  intros Hwf Hp Hlive Hsync.
  rewrite dispose_open_panel by done.
  destruct (closed_after_unload p s Hwf Hp Hlive) as (Hc & Hn & Hid & Hview).
  destruct (closed_Disposable_dispose p p _ Hc) as [Hc1 Hn1].
  split; [done|]. split; [by rewrite Hn1|]. done.
Qed.

(** What each way of ending a panel's lifetime does to a stored panel whose
    window is live. *)
Lemma closed_after_closure c p l :
  let s := service l in
  WellFormed s →
  floatingPanels s !! panel_id p = Some p →
  windowPhase (window p) s = Some Live →
  (c ≠ ByUnload → windowSync (window p) s = Some true) →
  let s' := service (step (closureAction c p) l) in
  Closed p s' ∧ closeCount p s' = 1 ∧
  floatingPanels s' = delete (panel_id p) (floatingPanels s) ∧
  floatingPanelsByViewId s' = delete (viewId p) (floatingPanelsByViewId s).
Proof.
  intros s Hwf Hp Hlive Hsync. destruct c as [|loc|]; simpl.
  - unfold closeFloatingPanel, close. fold s. rewrite Hp.
    apply closed_after_dispose; auto.
  - unfold dockFloatingPanel, close. fold s. rewrite Hp.
    destruct (getViewDescriptorById (viewId p)) as [d|];
      [|apply closed_after_dispose; auto].
    destruct (canMoveView d); [|apply closed_after_dispose; auto].
    apply (closed_after_dispose p (emit (MoveViewToLocation d loc "dock") s));
      auto.
    by apply wf_emit.
  - fold s. rewrite window_unload_open_panel by done.
    by apply closed_after_unload.
Qed.

(** ** Closing asks nothing of the View Registry *)

Lemma relocations_handlePanelClosed p s :
  relocations (handlePanelClosed p s) = relocations s.
Proof.
  unfold relocations. simpl. rewrite omap_app. simpl. by rewrite app_nil_r.
Qed.

Lemma relocations_window_unload w s :
  WellFormed s → relocations (window_unload w s) = relocations s.
Proof.
  intros Hwf.
  destruct (window_unload_cases w s Hwf)
    as [(-> & _) | (win & _ & _ & [(_ & ->) | (p & _ & _ & ->)])]; try done.
  by rewrite relocations_handlePanelClosed.
Qed.

Lemma relocations_dispose p s :
  WellFormed s → relocations (dispose p s) = relocations s.
Proof.
  intros Hwf. unfold dispose.
  change (relocations (window_dispose (window p) s) = relocations s).
  destruct (window_dispose_cases (window p) s)
    as [(-> & _) | [(_ & _ & ->) | (_ & _ & ->)]]; try done.
  by apply relocations_window_unload.
Qed.

(** ** The two maps stay consistent under sequential use *)

Lemma consistent_unique s : Consistent s → UniqueViews s.
Proof.
  intros [H1 H2]. split.
  - intros k1 k2 p1 p2 Hk1 Hk2 Hv.
    destruct (H1 _ _ Hk1) as [<- Hv1]. destruct (H1 _ _ Hk2) as [<- Hv2].
    rewrite Hv in Hv1. by simplify_eq.
  - intros v1 v2 p1 p2 Hv1 Hv2 Hv.
    destruct (H2 _ _ Hv1) as [<- _]. by destruct (H2 _ _ Hv2) as [<- _].
Qed.

Lemma consistent_handlePanelClosed q s :
  Consistent s → floatingPanels s !! panel_id q = Some q →
  Consistent (handlePanelClosed q s).
Proof.
  intros [H1 H2] Hq. destruct (H1 _ _ Hq) as [_ Hqv].
  split; simpl.
  - intros k p [Hne Hk]%lookup_delete_Some.
    destruct (H1 _ _ Hk) as [Hid Hv]. split; [done|].
    rewrite lookup_delete_ne; [done|].
    intros Heq. rewrite <- Heq, Hqv in Hv. by simplify_eq.
  - intros v p [Hne Hv]%lookup_delete_Some.
    destruct (H2 _ _ Hv) as [Hview Hid]. split; [done|].
    rewrite lookup_delete_ne; [done|].
    intros Heq. rewrite <- Heq, Hq in Hid. by simplify_eq.
Qed.

Lemma inv_initial : Inv initial.
Proof. split; [apply wf_initial | by split | done]. Qed.

Lemma inv_emit e s :
  Inv s → (∀ p, e ≠ DidCloseFloatingPanel p) → isDidOpen e = None →
  Inv (emit e s).
Proof.
  intros [Hwf [H1 H2] Hsub] He Ho. split; [|by split|done].
  apply wf_emit; [done| |done]. intros p ->. by destruct (He p).
Qed.

Lemma inv_window_unload w s : Inv s → Inv (window_unload w s).
Proof.
  intros [Hwf Hcons Hsub]. split; [by apply wf_window_unload| |].
  - destruct (window_unload_cases w s Hwf)
      as [(-> & _) | (win & Hwin & Hph & [(_ & ->) | (q & Hq & _ & ->)])];
      try done.
    + by destruct Hcons.
    + apply (consistent_handlePanelClosed q (mark Unloaded w s)).
      * by destruct Hcons.
      * apply (Hsub w win q Hwin Hph). rewrite Hq. by left.
  - destruct (window_unload_cases w s Hwf)
      as [(-> & _) | (win & Hwin & Hph & Hcases)]; [done|].
    assert (Hm : ∀ w' win' p, windows (mark Unloaded w s) !! w' = Some win' →
               phase win' ≠ Unloaded → p ∈ onUnload win' →
               w' ≠ w ∧ window p = w' ∧ floatingPanels s !! panel_id p = Some p).
    { unfold mark. simpl.
      intros w' win' p [(-> & x & Hx & ->) | (Hne & Hx)]%lookup_alter_Some Hp Hin;
        [done|].
      split; [done|]. split; [by eapply (wf_listeners s Hwf)|by eapply Hsub]. }
    destruct Hcases as [(_ & ->) | (q & Hq & Hqw & ->)].
    + intros w' win' p Hw' Hp Hin. by destruct (Hm w' win' p) as (_ & _ & ?).
    + intros w' win' p Hw' Hp Hin.
      destruct (Hm w' win' p Hw' Hp Hin) as (Hne & Hpw & Hstored).
      simpl. rewrite lookup_delete_ne; [done|].
      assert (Hqs : floatingPanels s !! panel_id q = Some q).
      { apply (Hsub w win q Hwin Hph). rewrite Hq. by left. }
      intros Heq. rewrite Heq, Hstored in Hqs. by simplify_eq.
Qed.

Lemma inv_mark_Closing w s :
  Inv s → windowPhase w s = Some Live → Inv (mark Closing w s).
Proof.
  intros [Hwf Hcons Hsub] Hlive. split.
  - apply wf_mark; [done|done|]. by rewrite Hlive.
  - by destruct Hcons.
  - unfold mark. simpl.
    intros w' win' p [(-> & x & Hx & ->) | (Hne & Hx)]%lookup_alter_Some Hp Hin.
    + simpl in *. eapply Hsub; [done| |done].
      unfold windowPhase in Hlive. rewrite Hx in Hlive. simpl in Hlive.
      simplify_eq. by rewrite Hlive.
    + by eapply Hsub.
Qed.

Lemma inv_dispose p s : Inv s → Inv (dispose p s).
Proof.
  intros Hinv.
  assert (Hd : Inv (window_dispose (window p) s)).
  { destruct (window_dispose_cases (window p) s)
      as [(-> & _) | [(_ & _ & ->) | (Hl & _ & ->)]]; [done| |].
    - by apply inv_window_unload.
    - by apply inv_mark_Closing. }
  destruct Hd as [Hwf Hcons Hsub]. split.
  - pose proof (inv_wf s Hinv). by apply wf_dispose.
  - by destruct Hcons.
  - unfold dispose, Disposable_dispose. simpl.
    intros w' win' q [(<- & x & Hx & ->) | (Hne & Hx)]%lookup_alter_Some Hp Hin.
    + simpl in *. apply list_elem_of_filter in Hin as [_ Hin]. by eapply Hsub.
    + by eapply Hsub.
Qed.

Lemma inv_openFloatingPanel_resume v outcome s :
  Inv s → floatingPanelsByViewId s !! v = None →
  Inv (openFloatingPanel_resume v outcome s).2.
Proof.
  intros [Hwf [H1 H2] Hsub] Hv.
  split; [by apply wf_openFloatingPanel_resume| |];
    (destruct outcome as [e|sync]; [done|]).
  - destruct (openFloatingPanel_resume_creates v sync s)
      as (_ & _ & _ & HbyId & HbyView).
    split; rewrite HbyId, HbyView.
    + intros k p [[<- <-] | [Hne Hk]]%lookup_insert_Some.
      * simpl. by rewrite lookup_insert_eq.
      * destruct (H1 _ _ Hk) as [Hid Hview]. split; [done|].
        rewrite lookup_insert_ne; [done|].
        intros Heq. rewrite <- Heq, Hv in Hview. done.
    + intros v' p [[<- <-] | [Hne Hv']]%lookup_insert_Some.
      * simpl. by rewrite lookup_insert_eq.
      * destruct (H2 _ _ Hv') as [Hview Hid]. split; [done|].
        rewrite lookup_insert_ne; [done|].
        destruct (wf_panels s Hwf _ _ Hid) as (_ & Hiss & _).
        apply issued_fresh in Hiss. simpl. congruence.
  - unfold openFloatingPanel_resume. simpl. rewrite lookup_insert_eq. simpl.
    intros w' win' p [(<- & x & Hx & ->) | (Hne & Hx)]%lookup_alter_Some Hp Hin.
    + rewrite lookup_insert_eq in Hx. simplify_eq. simpl in Hin.
      apply list_elem_of_singleton in Hin. subst p. simpl.
      by rewrite lookup_insert_eq.
    + rewrite lookup_insert_ne in Hx by done.
      pose proof (Hsub _ _ _ Hx Hp Hin) as Hstored.
      rewrite lookup_insert_ne; [done|].
      destruct (wf_panels s Hwf _ _ Hstored) as (_ & Hiss & _).
      apply issued_fresh in Hiss. congruence.
Qed.

Lemma inv_openFloatingPanel options outcome s :
  Inv s → Inv (openFloatingPanel options outcome s).2.
Proof.
  intros Hinv. unfold openFloatingPanel, openFloatingPanel_begin.
  destruct (floatingPanelsByViewId s !! opt_viewId options) as [existing|] eqn:Hv.
  - simpl. by apply inv_emit.
  - apply inv_openFloatingPanel_resume; [by apply inv_emit|done].
Qed.

Lemma inv_perform op s : Inv s → Inv (perform op s).
Proof.
  intros Hinv. destruct op as [o out|k|k loc|w]; simpl.
  - by apply inv_openFloatingPanel.
  - unfold closeFloatingPanel, close.
    destruct (floatingPanels s !! k); [by apply inv_dispose|done].
  - unfold dockFloatingPanel, close.
    destruct (floatingPanels s !! k) as [panel|]; [|done].
    apply inv_dispose.
    destruct (getViewDescriptorById (viewId panel)) as [d|]; [|done].
    destruct (canMoveView d); [|done].
    by apply inv_emit.
  - by apply inv_window_unload.
Qed.

Lemma inv_performAll ops s : Inv s → Inv (performAll ops s).
Proof.
  revert s. induction ops as [|op ops IH]; intros s Hinv; [done|].
  simpl. by apply IH, inv_perform.
Qed.

(** Every state reached by operations run one after the other has
    consistent maps. *)
Lemma consistent_reachable ops :
  Consistent (performAll ops initial) ∧ UniqueViews (performAll ops initial).
Proof.
  pose proof (inv_performAll ops initial inv_initial) as [_ Hc _].
  split; [done | by apply consistent_unique].
Qed.

(** ** The properties of the service *)

(** C2. Re-floating a view that already has a floating panel [P] focuses
    [P]'s window and returns [P] itself: the only call made is the focus
    request, both maps and the list of all panels are as before, the Window
    Provider is not asked for a window, and [onDidOpenFloatingPanel] does
    not fire again. *)
Theorem openFloatingPanel_existing options outcome s P :
  floatingPanelsByViewId s !! opt_viewId options = Some P →
  let r := openFloatingPanel options outcome s in
  r.1 = inr P ∧
  effects r.2 = effects s ++ [Focus (window P)] ∧
  floatingPanels r.2 = floatingPanels s ∧
  floatingPanelsByViewId r.2 = floatingPanelsByViewId s ∧
  getAllFloatingPanels r.2 = getAllFloatingPanels s ∧
  length (getAllFloatingPanels r.2) = length (getAllFloatingPanels s) ∧
  opened r.2 = opened s ∧
  windowRequests r.2 = windowRequests s.
Proof.
  intros HP. unfold openFloatingPanel, openFloatingPanel_begin.
  rewrite HP. simpl. unfold opened, windowRequests. simpl.
  rewrite !omap_app. simpl. rewrite !app_nil_r. done.
Qed.

(** C5. When the Window Provider rejects the request of a call, the call
    fails with the provider's error, no panel is created or stored under
    either key, no id is consumed and [onDidOpenFloatingPanel] does not
    fire; the only trace of the call is the request it made. The second part
    says the same of the resumed half of the call alone, whatever happened
    while the call was suspended. *)
Theorem openFloatingPanel_window_failure options e s :
  floatingPanelsByViewId s !! opt_viewId options = None →
  let r := openFloatingPanel options (Rejects e) s in
  (r.1 = inl e ∧
   floatingPanels r.2 = floatingPanels s ∧
   floatingPanelsByViewId r.2 = floatingPanelsByViewId s ∧
   idCounter r.2 = idCounter s ∧
   windows r.2 = windows s ∧
   opened r.2 = opened s ∧
   effects r.2 =
     effects s ++
     [WindowOpen {| bounds := Some (default defaultBounds (opt_bounds options)) |}]) ∧
  (∀ v s', openFloatingPanel_resume v (Rejects e) s' = (inl e, s')).
Proof.
  intros Hv. unfold openFloatingPanel, openFloatingPanel_begin.
  rewrite Hv. simpl. unfold opened. simpl.
  rewrite omap_app. simpl. rewrite app_nil_r. done.
Qed.

(** C8. Closing or docking a panel id the service does not know leaves the
    whole state as it was: both maps, the windows and the record of calls
    (so no event fires and nothing is asked of the View Registry). *)
Theorem unknown_panel_id_noop panelId location s :
  floatingPanels s !! panelId = None →
  closeFloatingPanel panelId s = s ∧
  dockFloatingPanel panelId location s = s.
Proof.
  intros Hnone. unfold closeFloatingPanel, dockFloatingPanel.
  by rewrite Hnone.
Qed.

(** C10. A call of [openFloatingPanel] whose options carry no bounds asks
    the Window Provider for a window of exactly 400 by 300, and asks once,
    unless the view is already floating, in which case it asks nothing. *)
Theorem openFloatingPanel_default_bounds options outcome s :
  opt_bounds options = None →
  let asked :=
    match floatingPanelsByViewId s !! opt_viewId options with
    | Some _ => []
    | None => [ {| bounds := Some {| width := 400; height := 300 |} |} ]
    end in
  windowRequests (openFloatingPanel_begin options s).2 =
    windowRequests s ++ asked ∧
  windowRequests (openFloatingPanel options outcome s).2 =
    windowRequests s ++ asked.
Proof.
  intros Hb. unfold openFloatingPanel, openFloatingPanel_begin, windowRequests.
  rewrite Hb.
  destruct (floatingPanelsByViewId s !! opt_viewId options); simpl.
  - by rewrite omap_app.
  - split; [by rewrite omap_app|].
    destruct outcome as [e|sync]; simpl.
    + by rewrite omap_app.
    + rewrite lookup_insert_eq. simpl. rewrite !omap_app. simpl.
      by rewrite app_nil_r.
Qed.

(** The float command passes its own bounds, 500 by 400. *)
Lemma FloatViewAction_run_bounds v d outcome s :
  v ≠ "" → getViewDescriptorById v = Some d →
  floatingPanelsByViewId s !! v = None →
  windowRequests (FloatViewAction_run (Some v) outcome s) =
  windowRequests s ++ [ {| bounds := Some {| width := 500; height := 400 |} |} ].
Proof.
  intros Hne Hd Hv. unfold FloatViewAction_run, truthy.
  rewrite bool_decide_eq_false_2 by done. simpl. rewrite Hd.
  unfold isViewFloating. rewrite Hv, bool_decide_eq_false_2 by (by intros [? ?]).
  unfold openFloatingPanel, openFloatingPanel_begin, windowRequests. simpl.
  rewrite Hv. destruct outcome as [e|sync]; simpl.
  - by rewrite omap_app.
  - rewrite lookup_insert_eq. simpl. rewrite !omap_app. simpl.
    by rewrite app_nil_r.
Qed.

(** C7 (the code at the claim's input). Invoked without a view id, the float
    command returns without any effect, whether or not a view has focus: the
    branch that was to resolve the focused view returns at once. *)
Theorem FloatViewAction_run_without_viewId outcome s :
  FloatViewAction_run None outcome s = s.
Proof. unfold FloatViewAction_run. simpl. by destruct (truthy _). Qed.


(** C6. Every operation of the manager, run to completion from a state
    satisfying the invariant, leads to a state satisfying it: the same
    panels are stored in both maps, each under its own id and its own view
    id, and no two entries of either map hold panels with the same view
    id. *)
Theorem maps_consistent_after_operation op s :
  Inv s →
  Inv (perform op s) ∧ Consistent (perform op s) ∧ UniqueViews (perform op s).
Proof.
  intros Hinv. pose proof (inv_perform op s Hinv) as Hinv'.
  split; [done|]. split; [by destruct Hinv'|].
  apply consistent_unique. by destruct Hinv'.
Qed.

(** X17. Where the close path does reach the cleanup. Take any state the
    event loop can reach and a stored panel whose window is live. If its
    lifetime is ended by the window's unload notification, or by
    [closeFloatingPanel] or [dockFloatingPanel] on a window that delivers
    its unload notification inside its destroy operation, then
    [onDidCloseFloatingPanel] had not fired for the panel before, has fired
    exactly once afterwards, neither map holds the panel, and whatever the
    loop does later, the count stays one and the panel never reappears in
    either map. *)
Theorem close_event_exactly_once acts later c p :
  let l := run acts loop0 in
  floatingPanels (service l) !! panel_id p = Some p →
  windowPhase (window p) (service l) = Some Live →
  (c ≠ ByUnload → windowSync (window p) (service l) = Some true) →
  let l' := step (closureAction c p) l in
  closeCount p (service l) = 0 ∧
  closeCount p (service l') = 1 ∧
  getFloatingPanel (panel_id p) (service l') = None ∧
  getFloatingPanelByViewId (viewId p) (service l') = None ∧
  closeCount p (service (run later l')) = 1 ∧
  (∀ k, floatingPanels (service (run later l')) !! k ≠ Some p) ∧
  (∀ v, floatingPanelsByViewId (service (run later l')) !! v ≠ Some p).
Proof.
  intros l Hp Hlive Hsync l'.
  pose proof (wf_reachable acts) as Hwf. fold l in Hwf.
  destruct (closed_after_closure c p l Hwf Hp Hlive Hsync)
    as (Hc & Hn & HbyId & HbyView).
  fold l' in Hc, Hn, HbyId, HbyView.
  assert (Hwf' : WellFormed (service l')) by (by apply wf_step).
  destruct (closed_run p later l' Hwf' Hc) as [Hc' Hn'].
  split; [by apply closeCount_open_panel|]. split; [done|].
  split; [unfold getFloatingPanel; by rewrite HbyId, lookup_delete_eq|].
  split; [unfold getFloatingPanelByViewId; by rewrite HbyView, lookup_delete_eq|].
  split; [by rewrite Hn'|]. split; by destruct Hc'.
Qed.

(** X18. Docking a known panel, in any state the event loop can reach, asks
    the View Registry to move the view, with the descriptor, the given
    location and the reason [dock], exactly when the registry has a
    descriptor for the view whose [canMoveView] is true; in every case the
    panel's window is then no longer live; and when that window was live
    and delivers its unload notification inside its destroy operation, the
    panel id is unknown and the view is not floating afterwards. *)
Theorem dockFloatingPanel_relocates_then_closes acts panelId location p :
  let s := service (run acts loop0) in
  floatingPanels s !! panelId = Some p →
  let s' := dockFloatingPanel panelId location s in
  relocations s' =
    relocations s ++
    match getViewDescriptorById (viewId p) with
    | Some d => if canMoveView d then [(d, location, "dock")] else []
    | None => []
    end ∧
  windowPhase (window p) s' ≠ Some Live ∧
  (windowPhase (window p) s = Some Live →
   windowSync (window p) s = Some true →
   getFloatingPanel panelId s' = None ∧
   isViewFloating (viewId p) s' = false).
Proof.
  intros s Hp s'.
  pose proof (wf_reachable acts) as Hwf. fold s in Hwf.
  destruct (wf_panels s Hwf _ _ Hp) as (-> & _).
  set (s1 := match getViewDescriptorById (viewId p) with
             | Some d => if canMoveView d
                         then emit (MoveViewToLocation d location "dock") s
                         else s
             | None => s
             end).
  assert (Hs' : s' = dispose p s1).
  { unfold s', dockFloatingPanel, close. by rewrite Hp. }
  assert (Hwf1 : WellFormed s1).
  { unfold s1. destruct (getViewDescriptorById (viewId p)) as [d|]; [|done].
    destruct (canMoveView d); [by apply wf_emit|done]. }
  assert (Hsame : floatingPanels s1 = floatingPanels s ∧ windows s1 = windows s).
  { unfold s1. destruct (getViewDescriptorById (viewId p)) as [d|]; [|done].
    by destruct (canMoveView d). }
  destruct Hsame as [HbyId Hwin].
  rewrite Hs'. split; [|split].
  - rewrite relocations_dispose by done. unfold s1, relocations.
    destruct (getViewDescriptorById (viewId p)) as [d|];
      [|by rewrite app_nil_r].
    destruct (canMoveView d); [|by rewrite app_nil_r].
    simpl. by rewrite omap_app.
  - unfold dispose. intros Hlive.
    apply (windowPhase_window_dispose (window p) s1 Hwf1).
    unfold windowPhase, Disposable_dispose in *. simpl in Hlive.
    rewrite lookup_alter_eq in Hlive.
    by destruct (windows (window_dispose (window p) s1) !! window p).
  - intros Hlive Hsync.
    destruct (closed_after_dispose p s1 Hwf1) as (_ & _ & Hid & Hview).
    + by rewrite HbyId.
    + unfold windowPhase. by rewrite Hwin.
    + unfold windowSync. by rewrite Hwin.
    + unfold getFloatingPanel, isViewFloating. rewrite Hid, Hview.
      rewrite !lookup_delete_eq. split; [done|].
      apply bool_decide_eq_false_2. by intros [? ?].
Qed.

(** C1 (the code at the claim's input). Two calls of [openFloatingPanel]
    for the same view that both reach their [await] before either window
    request settles both find no panel for the view and both create one:
    [onDidOpenFloatingPanel] fires twice, the service stores two panels with
    the same view id, and the maps are no longer consistent. *)
Theorem openFloatingPanel_overlapping_calls v title b sync1 sync2 :
  let options := {| opt_viewId := v; opt_title := title; opt_bounds := b |} in
  let s := service (run [CallOpen options; CallOpen options;
                         Settle 0 (Resolves sync1); Settle 0 (Resolves sync2)]
                      loop0) in
  let P0 := {| panel_id := "floating-panel-0"; viewId := v;
               window := 0; container := 0 |} in
  let P1 := {| panel_id := "floating-panel-1"; viewId := v;
               window := 1; container := 1 |} in
  opened s = [P0; P1] ∧
  getFloatingPanel "floating-panel-0" s = Some P0 ∧
  getFloatingPanel "floating-panel-1" s = Some P1 ∧
  length (getAllFloatingPanels s) = 2 ∧
  getFloatingPanelByViewId v s = Some P1 ∧
  ¬ Consistent s ∧ ¬ UniqueViews s.
Proof.
  intros options s P0 P1.
  assert (Hs : floatingPanels s =
                 <["floating-panel-1" := P1]> (<["floating-panel-0" := P0]> ∅) ∧
               floatingPanelsByViewId s = <[v := P1]> (<[v := P0]> ∅) ∧
               opened s = [P0; P1]).
  { unfold s, run, step, openFloatingPanel_begin. simpl.
    rewrite lookup_empty. simpl. rewrite lookup_empty. simpl.
    rewrite !lookup_insert_eq. simpl. done. }
  destruct Hs as (HbyId & HbyView & Hopened).
  assert (H0 : getFloatingPanel "floating-panel-0" s = Some P0).
  { unfold getFloatingPanel. rewrite HbyId.
    rewrite lookup_insert_ne by done. by rewrite lookup_insert_eq. }
  assert (H1 : getFloatingPanel "floating-panel-1" s = Some P1).
  { unfold getFloatingPanel. rewrite HbyId. by rewrite lookup_insert_eq. }
  assert (Hv : getFloatingPanelByViewId v s = Some P1).
  { unfold getFloatingPanelByViewId. rewrite HbyView. by rewrite lookup_insert_eq. }
  split; [done|]. split; [done|]. split; [done|]. split.
  { unfold getAllFloatingPanels. rewrite length_fmap, length_map_to_list, HbyId.
    rewrite map_size_insert_None, map_size_insert_None; [done|done|].
    by rewrite lookup_insert_ne. }
  split; [done|]. split.
  - intros [Hc _]. destruct (Hc _ _ H0) as [_ Hview]. simpl in Hview.
    unfold getFloatingPanelByViewId in Hv. rewrite Hv in Hview. by simplify_eq.
  - intros [Hu _]. by specialize (Hu _ _ _ _ H0 H1 eq_refl).
Qed.

(** ** What closing leaves alone *)

(** Running close callbacks fires close events and deletes map entries;
    it creates nothing and touches neither the counter nor the windows. *)
Lemma handlePanelClosed_fold_frame {A} (f : Effect → option A) l s :
  (∀ p, f (DidCloseFloatingPanel p) = None) →
  let s' := foldl (λ acc p, handlePanelClosed p acc) s l in
  omap f (effects s') = omap f (effects s) ∧
  idCounter s' = idCounter s ∧ windows s' = windows s ∧
  nextWindow s' = nextWindow s ∧
  floatingPanels s' ⊆ floatingPanels s ∧
  floatingPanelsByViewId s' ⊆ floatingPanelsByViewId s.
Proof.
  intros Hf. revert s. induction l as [|p l IH]; intros s; simpl.
  { done. }
  destruct (IH (handlePanelClosed p s)) as (He & Hc & Hw & Hn & Hid & Hview).
  split.
  { rewrite He. simpl. rewrite omap_app. simpl. rewrite Hf. simpl.
    by rewrite app_nil_r. }
  split; [done|]. split; [done|]. split; [done|]. split.
  - etrans; [exact Hid|]. simpl. apply delete_subseteq.
  - etrans; [exact Hview|]. simpl. apply delete_subseteq.
Qed.

Lemma dispose_frame {A} (f : Effect → option A) p s :
  (∀ q, f (DidCloseFloatingPanel q) = None) →
  omap f (effects (dispose p s)) = omap f (effects s) ∧
  idCounter (dispose p s) = idCounter s ∧
  nextWindow (dispose p s) = nextWindow s ∧
  floatingPanels (dispose p s) ⊆ floatingPanels s ∧
  floatingPanelsByViewId (dispose p s) ⊆ floatingPanelsByViewId s.
Proof.
  intros Hf. unfold dispose.
  change (omap f (effects (window_dispose (window p) s)) = omap f (effects s) ∧
          idCounter (window_dispose (window p) s) = idCounter s ∧
          nextWindow (window_dispose (window p) s) = nextWindow s ∧
          floatingPanels (window_dispose (window p) s) ⊆ floatingPanels s ∧
          floatingPanelsByViewId (window_dispose (window p) s) ⊆
            floatingPanelsByViewId s).
  unfold window_dispose, window_unload, fireUnload.
  destruct (windows s !! window p) as [win|] eqn:Hwin; [|done].
  destruct (phase win); [|done|done].
  destruct (syncUnload win); [|done].
  simpl. rewrite lookup_alter_eq, Hwin. simpl.
  destruct (handlePanelClosed_fold_frame f (onUnload win)
              (with_windows (alter (setPhase Unloaded) (window p) (windows s)) s) Hf)
    as (He & Hc & _ & Hn & Hid & Hview).
  done.
Qed.

Lemma dockFloatingPanel_frame panelId location s :
  let s' := dockFloatingPanel panelId location s in
  opened s' = opened s ∧ windowRequests s' = windowRequests s ∧
  idCounter s' = idCounter s ∧ nextWindow s' = nextWindow s ∧
  floatingPanels s' ⊆ floatingPanels s ∧
  floatingPanelsByViewId s' ⊆ floatingPanelsByViewId s ∧
  ∃ moves,
    relocations s' = relocations s ++ moves ∧
    (moves = [] ∨
     ∃ p d, floatingPanels s !! panelId = Some p ∧
            getViewDescriptorById (viewId p) = Some d ∧
            canMoveView d = true ∧ moves = [(d, location, "dock")]).
Proof.
  unfold dockFloatingPanel, close.
  destruct (floatingPanels s !! panelId) as [p|] eqn:Hp; cbv zeta.
  2:{ repeat (split; [done|]). exists []. rewrite app_nil_r. auto. }
  set (s1 := match getViewDescriptorById (viewId p) with
             | Some d => if canMoveView d
                         then emit (MoveViewToLocation d location "dock") s
                         else s
             | None => s
             end).
  destruct (dispose_frame isDidOpen p s1) as (Ho & Hc & Hn & Hid & Hview); [done|].
  destruct (dispose_frame isWindowOpen p s1) as (Hr & _); [done|].
  destruct (dispose_frame isMove p s1) as (Hm & _); [done|].
  unfold opened, windowRequests, relocations. rewrite Ho, Hr, Hm, Hc, Hn.
  assert (Hs1 : omap isDidOpen (effects s1) = omap isDidOpen (effects s) ∧
                omap isWindowOpen (effects s1) = omap isWindowOpen (effects s) ∧
                idCounter s1 = idCounter s ∧ nextWindow s1 = nextWindow s ∧
                floatingPanels s1 = floatingPanels s ∧
                floatingPanelsByViewId s1 = floatingPanelsByViewId s).
  { unfold s1. destruct (getViewDescriptorById (viewId p)) as [d|]; [|done].
    destruct (canMoveView d); [|done]. simpl. rewrite !omap_app. simpl.
    by rewrite !app_nil_r. }
  destruct Hs1 as (-> & -> & -> & -> & Hid1 & Hview1).
  rewrite Hid1 in Hid. rewrite Hview1 in Hview.
  repeat (split; [done|]).
  unfold s1. destruct (getViewDescriptorById (viewId p)) as [d|] eqn:Hd.
  - destruct (canMoveView d) eqn:Hmove.
    + exists [(d, location, "dock")]. simpl. rewrite omap_app. simpl.
      split; [done|]. right. by exists p, d.
    + exists []. rewrite app_nil_r. auto.
  - exists []. rewrite app_nil_r. auto.
Qed.

(** ** The commands *)

(** X1. Invoked without a view id, or with the empty string, each of the
    four commands leaves the state as it is. *)
Theorem runCommand_without_target c arg s :
  truthy arg = false → runCommand c arg s = s.
Proof.
  intros Harg.
  destruct c; simpl;
    unfold FloatViewAction_run, DockViewToSidebarAction_run,
      DockViewToPanelAction_run, DockViewToAuxiliaryBarAction_run,
      dockViewAction_run; rewrite Harg; simpl; try done.
  by destruct (truthy getFocusedViewName).
Qed.

(** X2. For a view id the View Registry has no descriptor for, the float
    command leaves the state as it is, also when a panel for that id is
    floating: the descriptor is looked up before the floating panel is. *)
Theorem FloatViewAction_run_unregistered v outcome s :
  getViewDescriptorById v = None →
  FloatViewAction_run (Some v) outcome s = s.
Proof.
  intros Hd. unfold FloatViewAction_run.
  destruct (truthy (Some v)); simpl.
  - by rewrite Hd.
  - by destruct (truthy getFocusedViewName).
Qed.

(** X3. A dock command never asks for a window, never fires an open event
    and never adds a panel to either map; it asks the View Registry for at
    most one move, to the location the command names, with the reason
    [dock], and only for a view whose descriptor lets it move. *)
Theorem dock_command_effects c location arg s :
  dockTarget c = Some location →
  let s' := runCommand c arg s in
  opened s' = opened s ∧ windowRequests s' = windowRequests s ∧
  idCounter s' = idCounter s ∧
  floatingPanels s' ⊆ floatingPanels s ∧
  floatingPanelsByViewId s' ⊆ floatingPanelsByViewId s ∧
  ∃ moves,
    relocations s' = relocations s ++ moves ∧
    (moves = [] ∨
     ∃ d, canMoveView d = true ∧ moves = [(d, location, "dock")]).
Proof.
  intros Hc.
  assert (Hrun : runCommand c arg s = dockViewAction_run location arg s).
  { destruct c; simpl in *; by simplify_eq. }
  simpl. rewrite Hrun. clear Hrun Hc. unfold dockViewAction_run.
  assert (Hsame : opened s = opened s ∧ windowRequests s = windowRequests s ∧
                  idCounter s = idCounter s ∧
                  floatingPanels s ⊆ floatingPanels s ∧
                  floatingPanelsByViewId s ⊆ floatingPanelsByViewId s ∧
                  ∃ moves, relocations s = relocations s ++ moves ∧
                    (moves = [] ∨
                     ∃ d, canMoveView d = true ∧ moves = [(d, location, "dock")])).
  { repeat (split; [done|]). exists []. rewrite app_nil_r. auto. }
  destruct (negb (truthy arg)); [done|].
  destruct arg as [v|]; [|done].
  destruct (getFloatingPanelByViewId v s) as [p|].
  - destruct (dockFloatingPanel_frame (panel_id p) location s)
      as (Ho & Hr & Hn & _ & Hid & Hview & moves & Hm & Hcase).
    repeat (split; [done|]). exists moves. split; [done|].
    destruct Hcase as [->|(q & d & _ & _ & Hmove & ->)]; [by left|].
    right. by exists d.
  - destruct (getViewDescriptorById v) as [d|]; [|done].
    destruct (canMoveView d) eqn:Hmove; [|done].
    unfold opened, windowRequests, relocations. simpl. rewrite !omap_app. simpl.
    rewrite !app_nil_r. repeat (split; [done|]).
    exists [(d, location, "dock")]. split; [done|]. right. by exists d.
Qed.

Lemma truthy_Some v : v ≠ "" → truthy (Some v) = true.
Proof. intros Hv. unfold truthy. by rewrite bool_decide_eq_false_2. Qed.

Lemma isViewFloating_true v s :
  isViewFloating v s = true ↔ is_Some (floatingPanelsByViewId s !! v).
Proof. unfold isViewFloating. apply bool_decide_eq_true. Qed.

Lemma isViewFloating_false v s :
  isViewFloating v s = false ↔ floatingPanelsByViewId s !! v = None.
Proof.
  unfold isViewFloating. rewrite bool_decide_eq_false.
  by rewrite eq_None_not_Some.
Qed.

Lemma FloatViewAction_run_floating v d p outcome s :
  v ≠ "" → getViewDescriptorById v = Some d →
  floatingPanelsByViewId s !! v = Some p →
  FloatViewAction_run (Some v) outcome s = bringToFront p s.
Proof.
  intros Hv Hd Hp. unfold FloatViewAction_run.
  rewrite truthy_Some by done. simpl. rewrite Hd.
  assert (Hf : isViewFloating v s = true) by (apply isViewFloating_true; eauto).
  rewrite Hf. unfold getFloatingPanelByViewId. by rewrite Hp.
Qed.

Lemma openFloatingPanel_absent options outcome s :
  floatingPanelsByViewId s !! opt_viewId options = None →
  openFloatingPanel options outcome s =
  openFloatingPanel_resume (opt_viewId options) outcome
    (emit (WindowOpen
             {| bounds := Some (default defaultBounds (opt_bounds options)) |}) s).
Proof.
  intros Hv. unfold openFloatingPanel, openFloatingPanel_begin. by rewrite Hv.
Qed.

Lemma FloatViewAction_run_not_floating v d outcome s :
  v ≠ "" → getViewDescriptorById v = Some d →
  floatingPanelsByViewId s !! v = None →
  FloatViewAction_run (Some v) outcome s =
  (openFloatingPanel
     {| opt_viewId := v; opt_title := Some (titleOf d);
        opt_bounds := Some {| width := 500; height := 400 |} |} outcome s).2.
Proof.
  intros Hv Hd Hp. unfold FloatViewAction_run.
  rewrite truthy_Some by done. change (negb true) with false. cbv iota.
  rewrite Hd.
  assert (Hf : isViewFloating v s = false) by (by apply isViewFloating_false).
  by rewrite Hf.
Qed.

(** X4. Floating a registered view twice in a row: after the first command,
    whose window request succeeds, the view is floating, and the second
    command does nothing but ask for the focus of that panel's window: no
    second panel, no second window, no second open event. *)
Theorem FloatViewAction_run_twice v d sync outcome s :
  v ≠ "" → getViewDescriptorById v = Some d →
  let s1 := FloatViewAction_run (Some v) (Resolves sync) s in
  let s2 := FloatViewAction_run (Some v) outcome s1 in
  isViewFloating v s1 = true ∧
  ∃ p, getFloatingPanelByViewId v s1 = Some p ∧
       s2 = emit (Focus (window p)) s1 ∧
       floatingPanels s2 = floatingPanels s1 ∧
       floatingPanelsByViewId s2 = floatingPanelsByViewId s1 ∧
       opened s2 = opened s1 ∧ windowRequests s2 = windowRequests s1.
Proof.
  intros Hv Hd s1 s2.
  assert (Hp : ∃ p, floatingPanelsByViewId s1 !! v = Some p).
  { unfold s1. destruct (floatingPanelsByViewId s !! v) as [p0|] eqn:Hp0.
    - rewrite (FloatViewAction_run_floating v d p0) by done. by exists p0.
    - rewrite (FloatViewAction_run_not_floating v d) by done.
      rewrite openFloatingPanel_absent by done. simpl opt_viewId.
      match goal with
      | |- context [openFloatingPanel_resume v (Resolves sync) ?s0] =>
          destruct (openFloatingPanel_resume_creates v sync s0)
            as (_ & _ & _ & _ & Hview)
      end.
      rewrite Hview. eexists. apply lookup_insert_eq. }
  destruct Hp as [p Hp].
  split; [apply isViewFloating_true; eauto|].
  exists p. split; [done|].
  assert (Hs2 : s2 = emit (Focus (window p)) s1).
  { unfold s2. by rewrite (FloatViewAction_run_floating v d p). }
  split; [done|]. rewrite Hs2. unfold opened, windowRequests. simpl.
  rewrite !omap_app. simpl. by rewrite !app_nil_r.
Qed.

(** X5. Each of the four commands, run to completion from a state
    satisfying the invariant of sequential use, leads to a state satisfying
    it: the commands keep the two maps consistent. *)
Theorem runCommand_keeps_invariant c arg s :
  Inv s → Inv (runCommand c arg s) ∧ Consistent (runCommand c arg s).
Proof.
  intros Hinv.
  assert (Hdock : ∀ location, Inv (dockViewAction_run location arg s)).
  { intros location. unfold dockViewAction_run.
    destruct (negb (truthy arg)); [done|].
    destruct arg as [v|]; [|done].
    destruct (getFloatingPanelByViewId v s) as [p|].
    - apply (inv_perform (DockFloatingPanel (panel_id p) location) s Hinv).
    - destruct (getViewDescriptorById v) as [d|]; [|done].
      destruct (canMoveView d); [|done]. by apply inv_emit. }
  assert (H : Inv (runCommand c arg s)).
  { destruct c as [outcome| | |]; simpl; try apply Hdock.
    unfold FloatViewAction_run.
    destruct (negb (truthy arg)); [by destruct (truthy getFocusedViewName)|].
    destruct arg as [v|]; [|done].
    destruct (getViewDescriptorById v) as [d|]; [|done].
    destruct (isViewFloating v s).
    - destruct (getFloatingPanelByViewId v s); [|done]. by apply inv_emit.
    - by apply inv_openFloatingPanel. }
  split; [done | by destruct H].
Qed.

Lemma dockViewAction_run_floating location v p s :
  v ≠ "" → floatingPanelsByViewId s !! v = Some p →
  dockViewAction_run location (Some v) s =
  dockFloatingPanel (panel_id p) location s.
Proof.
  intros Hv Hp. unfold dockViewAction_run, getFloatingPanelByViewId.
  rewrite truthy_Some by done. change (negb true) with false. cbv iota.
  by rewrite Hp.
Qed.

(** X6. A dock command on a floating view, in a state satisfying the
    invariant, when the panel's window is live and delivers its unload
    notification inside destroy: afterwards the view is not floating, the
    panel is in neither map while every other entry is as before, its close
    event has fired once, and the View Registry was asked to move the view
    to the command's location exactly when the view's descriptor lets it
    move. *)
Theorem dock_command_on_floating_view c location v p s :
  Inv s → dockTarget c = Some location → v ≠ "" →
  floatingPanelsByViewId s !! v = Some p →
  windowPhase (window p) s = Some Live →
  windowSync (window p) s = Some true →
  let s' := runCommand c (Some v) s in
  isViewFloating v s' = false ∧
  getFloatingPanel (panel_id p) s' = None ∧
  floatingPanels s' = delete (panel_id p) (floatingPanels s) ∧
  floatingPanelsByViewId s' = delete v (floatingPanelsByViewId s) ∧
  closeCount p s' = 1 ∧
  relocations s' =
    relocations s ++
    match getViewDescriptorById v with
    | Some d => if canMoveView d then [(d, location, "dock")] else []
    | None => []
    end.
Proof.
  intros Hinv Hc Hv Hp Hlive Hsync.
  assert (Hrun : runCommand c (Some v) s = dockViewAction_run location (Some v) s).
  { destruct c; simpl in *; by simplify_eq. }
  cbv zeta. rewrite Hrun. clear Hrun Hc.
  rewrite (dockViewAction_run_floating location v p s Hv Hp).
  destruct Hinv as [Hwf [_ Hview] _].
  destruct (Hview v p Hp) as [Hvp Hid].
  destruct (closed_after_closure (ByDock location) p
              {| service := s; suspended := [] |} Hwf Hid Hlive)
    as (_ & Hn & HbyId & HbyView); [done|].
  simpl in Hn, HbyId, HbyView. rewrite Hvp in HbyView.
  split; [apply isViewFloating_false; by rewrite HbyView, lookup_delete_eq|].
  split; [unfold getFloatingPanel; by rewrite HbyId, lookup_delete_eq|].
  split; [done|]. split; [done|]. split; [done|].
  unfold dockFloatingPanel, close. rewrite Hid, Hvp.
  destruct (getViewDescriptorById v) as [d|].
  - destruct (canMoveView d).
    + rewrite relocations_dispose by (by apply wf_emit).
      unfold relocations. simpl. by rewrite omap_app.
    + rewrite relocations_dispose by done. by rewrite app_nil_r.
  - rewrite relocations_dispose by done. by rewrite app_nil_r.
Qed.

(** ** Opening, looking up and closing *)

Lemma openFloatingPanel_resume_window v sync s :
  let s' := (openFloatingPanel_resume v (Resolves sync) s).2 in
  windowPhase (nextWindow s) s' = Some Live ∧
  windowSync (nextWindow s) s' = Some sync.
Proof.
  unfold openFloatingPanel_resume, windowPhase, windowSync. simpl.
  rewrite lookup_insert_eq. simpl.
  by rewrite lookup_alter_eq, lookup_insert_eq.
Qed.

Lemma fresh_id_unused s :
  WellFormed s → floatingPanels s !! make_id (idCounter s) = None.
Proof.
  intros Hwf. destruct (floatingPanels s !! make_id (idCounter s)) as [q|] eqn:Hq;
    [|done].
  destruct (wf_panels s Hwf _ _ Hq) as (Hid & Hiss & _).
  by apply issued_fresh in Hiss.
Qed.

Lemma wf_openFloatingPanel options outcome s :
  WellFormed s → WellFormed (openFloatingPanel options outcome s).2.
Proof.
  intros Hwf. unfold openFloatingPanel.
  pose proof (wf_openFloatingPanel_begin options s Hwf) as Hb.
  destruct (openFloatingPanel_begin options s) as [[p|v] s1]; [done|].
  by apply wf_openFloatingPanel_resume.
Qed.

(** X7. In any state the event loop can reach, a call of
    [openFloatingPanel] for a view that is not floating, whose window
    request succeeds, returns a new panel for that view under an id no
    stored panel has; the panel is then found under its id and under its
    view id, the view is floating, there is one more panel, every other id
    and view id is looked up as before, and [onDidOpenFloatingPanel] has
    fired once more, for this panel. *)
Theorem openFloatingPanel_creates acts options sync :
  let s := service (run acts loop0) in
  floatingPanelsByViewId s !! opt_viewId options = None →
  let r := openFloatingPanel options (Resolves sync) s in
  ∃ p,
    r.1 = inr p ∧
    viewId p = opt_viewId options ∧
    panel_id p = make_id (idCounter s) ∧
    getFloatingPanel (panel_id p) s = None ∧
    getFloatingPanel (panel_id p) r.2 = Some p ∧
    getFloatingPanelByViewId (opt_viewId options) r.2 = Some p ∧
    isViewFloating (opt_viewId options) r.2 = true ∧
    length (getAllFloatingPanels r.2) = S (length (getAllFloatingPanels s)) ∧
    (∀ k, k ≠ panel_id p → getFloatingPanel k r.2 = getFloatingPanel k s) ∧
    (∀ v, v ≠ opt_viewId options →
          getFloatingPanelByViewId v r.2 = getFloatingPanelByViewId v s) ∧
    opened r.2 = opened s ++ [p].
Proof.
  intros s Hv r. pose proof (wf_reachable acts) as Hwf. fold s in Hwf.
  unfold r. rewrite openFloatingPanel_absent by done.
  match goal with
  | |- context [openFloatingPanel_resume _ _ ?s0] => set (s1 := s0)
  end.
  destruct (openFloatingPanel_resume_creates (opt_viewId options) sync s1)
    as (Hr & _ & Ho & HbyId & HbyView).
  pose proof (fresh_id_unused s Hwf) as Hfresh.
  eexists. split; [exact Hr|].
  unfold getFloatingPanel, getFloatingPanelByViewId, getAllFloatingPanels.
  rewrite HbyId, HbyView.
  change (floatingPanels s1) with (floatingPanels s).
  change (floatingPanelsByViewId s1) with (floatingPanelsByViewId s).
  change (idCounter s1) with (idCounter s). cbn [panel_id viewId].
  split; [done|]. split; [done|]. split; [done|].
  split; [by rewrite lookup_insert_eq|].
  split; [by rewrite lookup_insert_eq|].
  split; [apply isViewFloating_true; rewrite HbyView, lookup_insert_eq; eauto|].
  split.
  { rewrite !length_fmap, !length_map_to_list.
    by rewrite map_size_insert_None. }
  split; [intros k Hk; by rewrite lookup_insert_ne|].
  split; [intros v' Hv'; by rewrite lookup_insert_ne|].
  rewrite Ho. unfold opened, s1. simpl. rewrite omap_app. simpl.
  by rewrite app_nil_r.
Qed.

(** X8. Open, then close: in any state the event loop can reach, opening a
    floating panel for a view that is not floating, in a window that
    delivers its unload notification inside destroy, and closing it again
    by its id gives back exactly the two maps there were before, and the
    panel's close event has fired once. *)
Theorem open_then_close_restores_maps acts options :
  let s := service (run acts loop0) in
  floatingPanelsByViewId s !! opt_viewId options = None →
  let s1 := (openFloatingPanel options (Resolves true) s).2 in
  let p := {| panel_id := make_id (idCounter s); viewId := opt_viewId options;
              window := nextWindow s; container := nextWindow s |} in
  let s2 := closeFloatingPanel (panel_id p) s1 in
  floatingPanels s2 = floatingPanels s ∧
  floatingPanelsByViewId s2 = floatingPanelsByViewId s ∧
  closeCount p s2 = 1 ∧
  isViewFloating (opt_viewId options) s2 = false.
Proof.
  intros s Hv s1 p s2. pose proof (wf_reachable acts) as Hwf. fold s in Hwf.
  assert (Hwf1 : WellFormed s1) by (by apply wf_openFloatingPanel).
  pose proof (fresh_id_unused s Hwf) as Hfresh.
  unfold s2, s1 in *. rewrite openFloatingPanel_absent in * by done.
  match goal with
  | |- context [openFloatingPanel_resume _ _ ?s0] => set (s0' := s0) in *
  end.
  destruct (openFloatingPanel_resume_creates (opt_viewId options) true s0')
    as (_ & _ & _ & HbyId & HbyView).
  destruct (openFloatingPanel_resume_window (opt_viewId options) true s0')
    as (Hlive & Hsync).
  change (idCounter s0') with (idCounter s) in *.
  change (nextWindow s0') with (nextWindow s) in *.
  change (floatingPanels s0') with (floatingPanels s) in *.
  change (floatingPanelsByViewId s0') with (floatingPanelsByViewId s) in *.
  fold p in HbyId, HbyView.
  set (s1' := (openFloatingPanel_resume (opt_viewId options) (Resolves true) s0').2)
    in *.
  assert (Hp : floatingPanels s1' !! panel_id p = Some p)
    by (by rewrite HbyId, lookup_insert_eq).
  unfold closeFloatingPanel, close. rewrite Hp.
  destruct (closed_after_dispose p s1' Hwf1 Hp Hlive Hsync)
    as (_ & Hn & Hid & Hview).
  rewrite Hid, Hview, HbyId, HbyView. simpl.
  rewrite !delete_insert_eq, !delete_id by done.
  split; [done|]. split; [done|]. split; [done|].
  apply isViewFloating_false. rewrite Hview, HbyView. simpl.
  by rewrite delete_insert_eq, delete_id.
Qed.

Lemma dispose_stored_maps p s :
  WellFormed s → floatingPanels s !! panel_id p = Some p →
  (floatingPanels (dispose p s) = floatingPanels s ∧
   floatingPanelsByViewId (dispose p s) = floatingPanelsByViewId s) ∨
  (floatingPanels (dispose p s) = delete (panel_id p) (floatingPanels s) ∧
   floatingPanelsByViewId (dispose p s) =
     delete (viewId p) (floatingPanelsByViewId s)).
Proof.
  intros Hwf Hp. unfold dispose.
  change ((floatingPanels (window_dispose (window p) s) = floatingPanels s ∧
           floatingPanelsByViewId (window_dispose (window p) s) =
             floatingPanelsByViewId s) ∨
          (floatingPanels (window_dispose (window p) s) =
             delete (panel_id p) (floatingPanels s) ∧
           floatingPanelsByViewId (window_dispose (window p) s) =
             delete (viewId p) (floatingPanelsByViewId s))).
  destruct (window_dispose_cases (window p) s)
    as [(-> & _) | [(Hl & _ & ->) | (_ & _ & ->)]].
  - by left.
  - right. by rewrite window_unload_open_panel.
  - by left.
Qed.

(** X9. In any state the event loop can reach, closing or docking a stored
    panel touches no other panel: every other panel id and every other view
    id is looked up as before, whatever the panel's window does. *)
Theorem closing_leaves_other_panels acts panelId location p :
  let s := service (run acts loop0) in
  floatingPanels s !! panelId = Some p →
  (∀ k, k ≠ panelId →
        getFloatingPanel k (closeFloatingPanel panelId s) = getFloatingPanel k s ∧
        getFloatingPanel k (dockFloatingPanel panelId location s) =
          getFloatingPanel k s) ∧
  (∀ v, v ≠ viewId p →
        getFloatingPanelByViewId v (closeFloatingPanel panelId s) =
          getFloatingPanelByViewId v s ∧
        getFloatingPanelByViewId v (dockFloatingPanel panelId location s) =
          getFloatingPanelByViewId v s).
Proof.
  intros s Hp. pose proof (wf_reachable acts) as Hwf. fold s in Hwf.
  destruct (wf_panels s Hwf _ _ Hp) as (-> & _).
  set (s1 := match getViewDescriptorById (viewId p) with
             | Some d => if canMoveView d
                         then emit (MoveViewToLocation d location "dock") s
                         else s
             | None => s
             end).
  assert (Hdock : dockFloatingPanel (panel_id p) location s = dispose p s1).
  { unfold dockFloatingPanel, close. by rewrite Hp. }
  assert (Hclose : closeFloatingPanel (panel_id p) s = dispose p s).
  { unfold closeFloatingPanel, close. by rewrite Hp. }
  assert (Hs1 : WellFormed s1 ∧ floatingPanels s1 = floatingPanels s ∧
                floatingPanelsByViewId s1 = floatingPanelsByViewId s).
  { unfold s1. destruct (getViewDescriptorById (viewId p)) as [d|]; [|done].
    destruct (canMoveView d); [|done]. split; [by apply wf_emit|done]. }
  destruct Hs1 as (Hwf1 & Hid1 & Hview1).
  assert (Hp1 : floatingPanels s1 !! panel_id p = Some p) by (by rewrite Hid1).
  rewrite Hdock, Hclose. unfold getFloatingPanel, getFloatingPanelByViewId.
  destruct (dispose_stored_maps p s Hwf Hp) as [[-> ->] | [-> ->]];
    destruct (dispose_stored_maps p s1 Hwf1 Hp1) as [[-> ->] | [-> ->]];
    rewrite ?Hid1, ?Hview1; split; intros x Hx;
    rewrite ?lookup_delete_ne by done; done.
Qed.

(** ** The record of events agrees with the state *)

Lemma opened_emit e s p : p ∈ opened s → p ∈ opened (emit e s).
Proof.
  unfold opened. simpl. rewrite omap_app. intros Hp.
  apply elem_of_app. by left.
Qed.

Lemma traced_initial : Traced initial.
Proof.
  split; simpl; try done.
  intros p Hp. by apply elem_of_nil in Hp.
Qed.

Lemma traced_emit e s :
  Traced s → (∀ p, e ≠ DidCloseFloatingPanel p) → Traced (emit e s).
Proof.
  intros [H1 H2 H3 H4] He. split.
  - intros w win p Hw Hp. destruct (H1 w win p Hw Hp) as [Hi Ho].
    split; [done | by apply opened_emit].
  - intros k p Hk. by apply opened_emit, (H2 k).
  - intros v p Hv. by apply opened_emit, (H3 v).
  - intros p [Hin | Hin%list_elem_of_singleton]%elem_of_app;
      [|by destruct (He p)].
    destruct (H4 p Hin) as (Hc & Ho & Hn).
    destruct (closed_emit p e s Hc (He p)) as [Hc' Hn'].
    split; [done|]. split; [by apply opened_emit | by rewrite Hn'].
Qed.

Lemma traced_mark ph w s :
  Traced s → (windowPhase w s = Some Unloaded → ph = Unloaded) →
  Traced (mark ph w s).
Proof.
  intros [H1 H2 H3 H4] Hph. split; try done.
  - unfold mark. simpl.
    intros w' win p [(-> & x & Hx & ->) | (Hne & Hx)]%lookup_alter_Some Hp;
      by eapply H1.
  - intros p Hin. destruct (H4 p Hin) as (Hc & Ho & Hn).
    destruct (closed_mark p ph w s Hc) as [Hc' Hn'].
    { intros ->. apply Hph. by destruct Hc. }
    split; [done|]. split; [done | by rewrite Hn'].
Qed.

Lemma traced_handlePanelClosed q s :
  WellFormed s → Traced s →
  windowPhase (window q) s = Some Unloaded → issued s q → q ∈ opened s →
  DidCloseFloatingPanel q ∉ effects s →
  Traced (handlePanelClosed q s).
Proof.
  intros Hwf [H1 H2 H3 H4] Hph Hiss Hopen Hnew.
  assert (Ho : ∀ p, p ∈ opened s → p ∈ opened (handlePanelClosed q s)).
  { intros p Hp. unfold handlePanelClosed. by apply opened_emit. }
  split.
  - intros w win p Hw Hp. destruct (H1 w win p Hw Hp) as [Hi Hop].
    split; [done | by apply Ho].
  - simpl. intros k p [_ Hk]%lookup_delete_Some. by apply Ho, (H2 k).
  - simpl. intros v p [_ Hv]%lookup_delete_Some. by apply Ho, (H3 v).
  - intros p Hin. change (effects (handlePanelClosed q s))
      with (effects s ++ [DidCloseFloatingPanel q]) in Hin.
    apply elem_of_app in Hin as [Hin | Hin%list_elem_of_singleton].
    + destruct (H4 p Hin) as (Hc & Hop & Hn).
      assert (Hqp : q ≠ p) by (by intros ->).
      destruct (closed_handlePanelClosed p q s Hc Hqp) as [Hc' Hn'].
      split; [done|]. split; [by apply Ho | by rewrite Hn'].
    + simplify_eq. split; [split|split]; try done.
      * simpl. intros k [Hne Hk]%lookup_delete_Some.
        by destruct (wf_panels s Hwf _ _ Hk) as (-> & _).
      * simpl. intros v [Hne Hv]%lookup_delete_Some.
        by destruct (wf_byView s Hwf _ _ Hv) as (-> & _).
      * by apply Ho.
      * unfold handlePanelClosed. rewrite closeCount_emit, decide_True by done.
        change (closeCount q s + 1 = 1). by rewrite (closeCount_zero q s Hnew).
Qed.

Lemma traced_Disposable_dispose q s :
  Traced s → Traced (Disposable_dispose q s).
Proof.
  intros [H1 H2 H3 H4]. split; try done.
  - unfold Disposable_dispose. simpl.
    intros w' win p [(<- & x & Hx & ->) | (Hne & Hx)]%lookup_alter_Some Hp.
    + simpl in Hp. apply list_elem_of_filter in Hp as [_ Hp]. by eapply H1.
    + by eapply H1.
  - intros p Hin. destruct (H4 p Hin) as (Hc & Ho & Hn).
    destruct (closed_Disposable_dispose p q s Hc) as [Hc' Hn'].
    split; [done|]. split; [done | by rewrite Hn'].
Qed.

Lemma traced_window_unload w s :
  WellFormed s → Traced s → Traced (window_unload w s).
Proof.
  intros Hwf Htr.
  destruct (window_unload_cases w s Hwf)
    as [(-> & _) | (win & Hwin & Hph & Hcases)]; [done|].
  assert (Hm : Traced (mark Unloaded w s)) by (by apply traced_mark).
  destruct Hcases as [(_ & ->) | (q & Hq & Hqw & ->)]; [done|].
  destruct (tr_listeners s Htr w win q Hwin) as [Hiss Hopen].
  { rewrite Hq. by left. }
  apply traced_handlePanelClosed; try done.
  - by apply wf_mark.
  - rewrite windowPhase_mark, decide_True by done.
    unfold windowPhase. by rewrite Hqw, Hwin.
  - intros Hin. pose proof (wf_closed s Hwf q Hin) as Hu.
    unfold windowPhase in Hu. rewrite Hqw, Hwin in Hu. simpl in Hu.
    by simplify_eq.
Qed.

Lemma traced_dispose p s : WellFormed s → Traced s → Traced (dispose p s).
Proof.
  intros Hwf Htr. unfold dispose. apply traced_Disposable_dispose.
  destruct (window_dispose_cases (window p) s)
    as [(-> & _) | [(_ & _ & ->) | (Hl & _ & ->)]]; [done| |].
  - by apply traced_window_unload.
  - apply traced_mark; [done|]. by rewrite Hl.
Qed.

Lemma openFloatingPanel_resume_state v sync s :
  let panel := {| panel_id := make_id (idCounter s); viewId := v;
                  window := nextWindow s; container := nextWindow s |} in
  let s' := (openFloatingPanel_resume v (Resolves sync) s).2 in
  windows s' =
    alter (λ win, setListeners (onUnload win ++ [panel]) win) (nextWindow s)
      (<[nextWindow s := {| syncUnload := sync; phase := Live; onUnload := [];
                            win_container := nextWindow s |}]> (windows s)) ∧
  effects s' = effects s ++ [DidOpenFloatingPanel panel].
Proof.
  unfold openFloatingPanel_resume. simpl. by rewrite lookup_insert_eq.
Qed.

Lemma traced_openFloatingPanel_resume v outcome s :
  WellFormed s → Traced s → Traced (openFloatingPanel_resume v outcome s).2.
Proof.
  intros Hwf Htr. destruct outcome as [e|sync]; [done|].
  destruct (openFloatingPanel_resume_creates v sync s)
    as (_ & Hcnt & Ho & HbyId & HbyView).
  destruct (openFloatingPanel_resume_state v sync s) as (Hwins & Heff).
  set (s' := (openFloatingPanel_resume v (Resolves sync) s).2) in *.
  set (panel := {| panel_id := make_id (idCounter s); viewId := v;
                   window := nextWindow s; container := nextWindow s |}) in *.
  assert (Hold : ∀ p, p ∈ opened s → p ∈ opened s').
  { intros p Hp. rewrite Ho. apply elem_of_app. by left. }
  assert (Hnew : panel ∈ opened s').
  { rewrite Ho. apply elem_of_app. right. by left. }
  assert (Hmono : ∀ p, issued s p → issued s' p).
  { intros p. apply issued_mono. rewrite Hcnt. lia. }
  assert (Hinew : issued s' panel).
  { exists (idCounter s). rewrite Hcnt. split; [lia|done]. }
  destruct Htr as [H1 H2 H3 H4]. split.
  - intros w' win p Hw Hp. rewrite Hwins in Hw.
    apply lookup_alter_Some in Hw as [(<- & x & Hx & ->) | (Hne & Hx)].
    + rewrite lookup_insert_eq in Hx. simplify_eq. simpl in Hp.
      apply list_elem_of_singleton in Hp. subst p.
      split; [exact Hinew | exact Hnew].
    + rewrite lookup_insert_ne in Hx by done.
      destruct (H1 _ _ _ Hx Hp) as [Hi Hop].
      split; [by apply Hmono | by apply Hold].
  - rewrite HbyId. intros k p [[_ <-] | [_ Hk]]%lookup_insert_Some; [done|].
    by apply Hold, (H2 k).
  - rewrite HbyView. intros k p [[_ <-] | [_ Hk]]%lookup_insert_Some; [done|].
    by apply Hold, (H3 k).
  - intros p Hin.
    assert (Hin' : DidCloseFloatingPanel p ∈ effects s).
    { rewrite Heff in Hin.
      by apply elem_of_app in Hin as [Hin | Hin%list_elem_of_singleton]. }
    destruct (H4 p Hin') as (Hc & Hop & Hn).
    destruct (closed_openFloatingPanel_resume p v (Resolves sync) s Hwf Hc)
      as [Hc' Hn'].
    fold s' in Hc', Hn'.
    split; [done|]. split; [by apply Hold | by rewrite Hn'].
Qed.

Lemma traced_step a l :
  WellFormed (service l) → Traced (service l) → Traced (service (step a l)).
Proof.
  intros Hwf Htr. destruct a as [o|i out|k|k loc|w]; simpl.
  - unfold openFloatingPanel_begin.
    destruct (floatingPanelsByViewId (service l) !! opt_viewId o); simpl;
      by apply traced_emit.
  - destruct (suspended l !! i); [|done]. simpl.
    by apply traced_openFloatingPanel_resume.
  - unfold closeFloatingPanel, close.
    destruct (floatingPanels (service l) !! k); [|done].
    by apply traced_dispose.
  - unfold dockFloatingPanel, close.
    destruct (floatingPanels (service l) !! k) as [panel|]; [|done].
    destruct (getViewDescriptorById (viewId panel)) as [d|];
      [|by apply traced_dispose].
    destruct (canMoveView d); [|by apply traced_dispose].
    apply traced_dispose; [by apply wf_emit | by apply traced_emit].
  - by apply traced_window_unload.
Qed.

Lemma traced_reachable acts : Traced (service (run acts loop0)).
Proof.
  assert (H : ∀ l, WellFormed (service l) → Traced (service l) →
                   Traced (service (run acts l))).
  { induction acts as [|a acts IH]; intros l Hwf Htr; [done|].
    simpl. apply IH; [by apply wf_step | by apply traced_step]. }
  apply H; [apply wf_initial | apply traced_initial].
Qed.

(** X10. Over any run of the event loop and whatever the windows do,
    [onDidCloseFloatingPanel] fires at most once for a panel; it fires only
    for a panel [onDidOpenFloatingPanel] has fired for, and once it has
    fired the panel is in neither map. *)
Theorem close_event_at_most_once acts p :
  let s := service (run acts loop0) in
  closeCount p s ≤ 1 ∧
  (DidCloseFloatingPanel p ∈ effects s →
   closeCount p s = 1 ∧ p ∈ opened s ∧
   (∀ k, getFloatingPanel k s ≠ Some p) ∧
   (∀ v, getFloatingPanelByViewId v s ≠ Some p)).
Proof.
  intros s. pose proof (traced_reachable acts) as Htr. fold s in Htr.
  split.
  - destruct (decide (DidCloseFloatingPanel p ∈ effects s)) as [Hin|Hnot].
    + destruct (tr_closed s Htr p Hin) as (_ & _ & ->). lia.
    + rewrite closeCount_zero by done. lia.
  - intros Hin. destruct (tr_closed s Htr p Hin) as ([_ _ Hid Hview] & Ho & Hn).
    done.
Qed.

(** X11. Over any run of the event loop, every panel the service returns
    from a lookup, by id or by view id, is one it created and announced
    with [onDidOpenFloatingPanel], and no close event has fired for it. *)
Theorem stored_panels_are_open acts p :
  let s := service (run acts loop0) in
  (∀ k, getFloatingPanel k s = Some p →
        panel_id p = k ∧ p ∈ opened s ∧ closeCount p s = 0) ∧
  (∀ v, getFloatingPanelByViewId v s = Some p →
        viewId p = v ∧ p ∈ opened s ∧ closeCount p s = 0).
Proof.
  intros s. pose proof (traced_reachable acts) as Htr.
  pose proof (wf_reachable acts) as Hwf. fold s in Htr, Hwf.
  unfold getFloatingPanel, getFloatingPanelByViewId. split.
  - intros k Hk. destruct (wf_panels s Hwf _ _ Hk) as (-> & _).
    split; [done|]. split; [by apply (tr_stored s Htr (panel_id p))|].
    apply closeCount_zero. intros Hin.
    destruct (tr_closed s Htr p Hin) as ([_ _ Hid _] & _). by apply (Hid (panel_id p)).
  - intros v Hv. destruct (wf_byView s Hwf _ _ Hv) as (-> & _).
    split; [done|]. split; [by apply (tr_storedByView s Htr (viewId p))|].
    apply closeCount_zero. intros Hin.
    destruct (tr_closed s Htr p Hin) as ([_ _ _ Hview] & _). by apply (Hview (viewId p)).
Qed.

(** ** Overlapping calls for different views *)

Lemma window_unload_byViewId w s :
  floatingPanelsByViewId (window_unload w s) ⊆ floatingPanelsByViewId s.
Proof.
  unfold window_unload, fireUnload.
  destruct (windows s !! w) as [win|] eqn:Hwin; [|done].
  destruct (phase win); try done; simpl; rewrite lookup_alter_eq, Hwin; simpl;
    match goal with
    | |- context [foldl _ ?s0 _] =>
        by destruct (handlePanelClosed_fold_frame isMove (onUnload win) s0)
          as (_ & _ & _ & _ & _ & ?)
    end.
Qed.

Lemma absent_after_close v a l :
  match a with CallOpen _ | Settle _ _ => False | _ => True end →
  floatingPanelsByViewId (service l) !! v = None →
  floatingPanelsByViewId (service (step a l)) !! v = None.
Proof.
  intros Ha Hv. destruct a as [o|i out|k|k loc|w]; try done; simpl.
  - unfold closeFloatingPanel, close.
    destruct (floatingPanels (service l) !! k) as [p|]; [|done].
    destruct (dispose_frame isMove p (service l)) as (_ & _ & _ & _ & Hsub);
      [done|].
    by eapply lookup_weaken_None.
  - destruct (dockFloatingPanel_frame k loc (service l))
      as (_ & _ & _ & _ & _ & Hsub & _).
    by eapply lookup_weaken_None.
  - by eapply lookup_weaken_None, window_unload_byViewId.
Qed.

Lemma elem_of_delete_NoDup (l : list string) i v v' :
  NoDup l → l !! i = Some v → v' ∈ delete i l → v' ≠ v ∧ v' ∈ l.
Proof.
  intros Hnd Hi Hin.
  rewrite <- (take_drop_middle l i v Hi) in Hnd.
  rewrite delete_take_drop in Hin.
  apply NoDup_app in Hnd as (_ & Hdisj & Hnd2).
  apply NoDup_cons in Hnd2 as [Hnot _].
  rewrite <- (take_drop_middle l i v Hi).
  apply elem_of_app in Hin as [Hin|Hin].
  - split.
    + intros ->. apply (Hdisj v Hin). by left.
    + apply elem_of_app. by left.
  - split.
    + by intros ->.
    + apply elem_of_app. right. by right.
Qed.

Lemma quiet_loop0 : Quiet loop0.
Proof.
  split; simpl.
  - apply inv_initial.
  - apply NoDup_nil_2.
  - intros v Hv. by apply elem_of_nil in Hv.
Qed.

Lemma quiet_step a l : Quiet l → admissible a l = true → Quiet (step a l).
Proof.
  intros [Hinv Hnd Habs] Ha. destruct a as [o|i out|k|k loc|w].
  - simpl in *. apply bool_decide_eq_true in Ha.
    unfold openFloatingPanel_begin.
    destruct (floatingPanelsByViewId (service l) !! opt_viewId o) as [p|] eqn:Hp;
      simpl.
    + split; simpl; [by apply inv_emit | done | done].
    + split; simpl.
      * by apply inv_emit.
      * apply NoDup_app. split; [done|]. split; [|apply NoDup_singleton].
        intros x Hx ->%list_elem_of_singleton. done.
      * intros v [Hv | ->%list_elem_of_singleton]%elem_of_app; [by apply Habs|done].
  - simpl. destruct (suspended l !! i) as [v|] eqn:Hi; [|done].
    assert (Hv : floatingPanelsByViewId (service l) !! v = None).
    { apply Habs. by eapply list_elem_of_lookup_2. }
    split; simpl.
    + by apply inv_openFloatingPanel_resume.
    + rewrite delete_take_drop.
      rewrite <- (take_drop_middle _ i v Hi) in Hnd.
      apply NoDup_app in Hnd as (Hn1 & Hdisj & Hn2).
      apply NoDup_cons in Hn2 as [Hnot Hn2].
      apply NoDup_app. split; [done|]. split; [|done].
      intros x Hx1 Hx2. apply (Hdisj x Hx1). by right.
    + intros v' Hv'.
      destruct (elem_of_delete_NoDup _ i v v' Hnd Hi Hv') as [Hne Hin].
      destruct out as [e|sync]; [by apply Habs|].
      destruct (openFloatingPanel_resume_creates v sync (service l))
        as (_ & _ & _ & _ & ->).
      rewrite lookup_insert_ne by done. by apply Habs.
  - split; [apply (inv_perform (CloseFloatingPanel k)), Hinv | done |].
    intros v Hv. apply absent_after_close; [done|]. by apply Habs.
  - split; [apply (inv_perform (DockFloatingPanel k loc)), Hinv | done |].
    intros v Hv. apply absent_after_close; [done|]. by apply Habs.
  - split; [apply (inv_perform (WindowUnload w)), Hinv | done |].
    intros v Hv. apply absent_after_close; [done|]. by apply Habs.
Qed.

Lemma quiet_run acts l :
  Quiet l → disjointOpens acts l = true → Quiet (run acts l).
Proof.
  revert l. induction acts as [|a acts IH]; intros l Hq Hd; [done|].
  simpl in *. apply andb_true_iff in Hd as [Ha Hd].
  apply IH; [by apply quiet_step | done].
Qed.

(** X12. Calls of [openFloatingPanel] may overlap at their [await] without
    harm as long as they are for different views: over any run of the event
    loop in which no call starts for a view while another call for that view
    is suspended, the two maps stay consistent and no two entries hold
    panels with the same view id. *)
Theorem overlapping_calls_for_different_views acts :
  disjointOpens acts loop0 = true →
  let s := service (run acts loop0) in
  Inv s ∧ Consistent s ∧ UniqueViews s.
Proof.
  intros Hd s.
  destruct (quiet_run acts loop0 quiet_loop0 Hd) as [Hinv _ _]. fold s in Hinv.
  split; [done|]. split; [by destruct Hinv|].
  apply consistent_unique. by destruct Hinv.
Qed.

(** ** The queries *)

Lemma elem_of_getAllFloatingPanels p s :
  p ∈ getAllFloatingPanels s ↔ ∃ k, floatingPanels s !! k = Some p.
Proof.
  unfold getAllFloatingPanels. rewrite list_elem_of_fmap. split.
  - intros ([k q] & -> & Hin%elem_of_map_to_list). by exists k.
  - intros [k Hk]. exists (k, p). split; [done|]. by apply elem_of_map_to_list.
Qed.

(** X13. When the two maps are consistent the queries agree: a panel is
    found under a view id exactly when it is in the list of all panels and
    hosts that view, a view is floating exactly when some listed panel hosts
    it, and a panel is found under an id exactly when it is listed and
    carries that id. *)
Theorem queries_agree s :
  Consistent s →
  (∀ v p, getFloatingPanelByViewId v s = Some p ↔
          p ∈ getAllFloatingPanels s ∧ viewId p = v) ∧
  (∀ v, isViewFloating v s = true ↔
        ∃ p, p ∈ getAllFloatingPanels s ∧ viewId p = v) ∧
  (∀ k p, getFloatingPanel k s = Some p ↔
          p ∈ getAllFloatingPanels s ∧ panel_id p = k).
Proof.
  intros [H1 H2].
  assert (Hview : ∀ v p, floatingPanelsByViewId s !! v = Some p ↔
                         p ∈ getAllFloatingPanels s ∧ viewId p = v).
  { intros v p. rewrite elem_of_getAllFloatingPanels. split.
    - intros Hv. destruct (H2 v p Hv) as [Hvp Hid]. split; [eauto|done].
    - intros [[k Hk] <-]. by destruct (H1 k p Hk). }
  split; [exact Hview|]. split.
  - intros v. rewrite isViewFloating_true. split.
    + intros [p Hp]. exists p. by apply Hview.
    + intros (p & Hp). exists p. by apply Hview.
  - intros k p. unfold getFloatingPanel.
    rewrite elem_of_getAllFloatingPanels. split.
    + intros Hk. destruct (H1 k p Hk) as [Hid _]. split; [eauto|done].
    + intros [[k' Hk'] <-]. by destruct (H1 k' p Hk') as [-> _].
Qed.

(** X14. When the two maps are consistent, the list of all panels has one
    panel per floating view: it is as long as the map by view id is large,
    and neither an id nor a view id occurs twice in it. *)
Theorem one_panel_per_floating_view s :
  Consistent s →
  length (getAllFloatingPanels s) = size (floatingPanelsByViewId s) ∧
  NoDup (panel_id <$> getAllFloatingPanels s) ∧
  NoDup (viewId <$> getAllFloatingPanels s).
Proof.
  intros [H1 H2].
  set (L := map_to_list (floatingPanels s)).
  set (g := λ kp : string * FloatingPanel, (viewId kp.2, kp.2)).
  assert (HL : ∀ k p, (k, p) ∈ L ↔ floatingPanels s !! k = Some p).
  { intros k p. apply elem_of_map_to_list. }
  assert (Hperm : g <$> L ≡ₚ map_to_list (floatingPanelsByViewId s)).
  { apply NoDup_Permutation.
    - apply NoDup_fmap_2_strong; [|apply NoDup_map_to_list].
      intros [k1 p1] [k2 p2] Hin1%HL Hin2%HL Hg. unfold g in Hg. simpl in Hg.
      destruct (H1 _ _ Hin1) as [<- _]. destruct (H1 _ _ Hin2) as [<- _].
      by simplify_eq.
    - apply NoDup_map_to_list.
    - intros [v p]. rewrite list_elem_of_fmap, elem_of_map_to_list. split.
      + intros ([k q] & Hg & Hin%HL). unfold g in Hg. simpl in Hg. simplify_eq.
        by destruct (H1 _ _ Hin).
      + intros Hv. destruct (H2 _ _ Hv) as [<- Hid].
        exists (panel_id p, p). split; [done|]. by apply HL. }
  unfold getAllFloatingPanels. fold L. split; [|split].
  - rewrite length_fmap, <- (length_fmap g), Hperm. apply length_map_to_list.
  - assert (Hfst : panel_id <$> L.*2 = L.*1).
    { rewrite <- list_fmap_compose. apply list_fmap_ext.
      intros i [k p] Hin%list_elem_of_lookup_2%HL. simpl.
      by destruct (H1 _ _ Hin). }
    rewrite Hfst. apply NoDup_fst_map_to_list.
  - assert (Hsnd : viewId <$> L.*2 = (g <$> L).*1).
    { by rewrite <- !list_fmap_compose. }
    rewrite Hsnd, Hperm. apply NoDup_fst_map_to_list.
Qed.

(** ** Window requests *)

Lemma window_unload_frame {A} (f : Effect → option A) w s :
  (∀ p, f (DidCloseFloatingPanel p) = None) →
  omap f (effects (window_unload w s)) = omap f (effects s).
Proof.
  intros Hf. unfold window_unload, fireUnload.
  destruct (windows s !! w) as [win|] eqn:Hwin; [|done].
  destruct (phase win); try done; simpl; rewrite lookup_alter_eq, Hwin; simpl;
    match goal with
    | |- context [foldl _ ?s0 _] =>
        by destruct (handlePanelClosed_fold_frame f (onUnload win) s0 Hf)
          as (? & _)
    end.
Qed.

Lemma requests_step a l :
  let s := service l in
  let s' := service (step a l) in
  ∃ asked,
    windowRequests s' = windowRequests s ++ asked ∧
    Forall (λ r, is_Some (bounds r)) asked ∧
    length (opened s') + length (suspended (step a l)) ≤
      length (opened s) + length (suspended l) + length asked.
Proof.
  destruct a as [o|i out|k|k loc|w]; cbv zeta; unfold step.
  - unfold openFloatingPanel_begin, windowRequests, opened.
    destruct (floatingPanelsByViewId (service l) !! opt_viewId o); simpl.
    + exists []. rewrite !omap_app. simpl. rewrite !app_nil_r.
      split; [done|]. split; [done|]. lia.
    + eexists [_]. rewrite !omap_app. simpl. rewrite !app_nil_r.
      split; [done|]. split; [by repeat constructor|].
      rewrite length_app. simpl. lia.
  - destruct (suspended l !! i) as [v|] eqn:Hi.
    2:{ exists []. rewrite app_nil_r. split; [done|]. split; [done|]. simpl. lia. }
    pose proof (lookup_lt_Some _ _ _ Hi) as Hlt.
    exists []. rewrite app_nil_r. cbn [service suspended].
    rewrite length_delete by eauto.
    destruct out as [e|sync].
    + simpl. split; [done|]. split; [done|]. lia.
    + destruct (openFloatingPanel_resume_creates v sync (service l))
        as (_ & _ & Ho & _).
      destruct (openFloatingPanel_resume_state v sync (service l)) as (_ & He).
      rewrite Ho. unfold windowRequests. rewrite He.
      rewrite omap_app. simpl. rewrite app_nil_r, length_app. simpl.
      split; [done|]. split; [done|]. lia.
  - exists []. rewrite app_nil_r. cbn [service suspended].
    unfold closeFloatingPanel, close.
    destruct (floatingPanels (service l) !! k) as [p|].
    2:{ split; [done|]. split; [done|]. simpl. lia. }
    destruct (dispose_frame isDidOpen p (service l)) as (Ho & _); [done|].
    destruct (dispose_frame isWindowOpen p (service l)) as (Hr & _); [done|].
    unfold windowRequests, opened. rewrite Ho, Hr.
    split; [done|]. split; [done|]. simpl. lia.
  - exists []. rewrite app_nil_r. cbn [service suspended].
    destruct (dockFloatingPanel_frame k loc (service l)) as (Ho & Hr & _).
    rewrite Ho, Hr. split; [done|]. split; [done|]. simpl. lia.
  - exists []. rewrite app_nil_r. cbn [service suspended].
    unfold windowRequests, opened.
    rewrite !window_unload_frame by done.
    split; [done|]. split; [done|]. simpl. lia.
Qed.

(** X15. Over any run of the event loop, every request the service makes
    to the Window Provider carries bounds, and there are never more panels
    created and calls suspended than requests made: no panel comes without
    a window request of its own. *)
Theorem window_requests_account acts :
  let l := run acts loop0 in
  Forall (λ r, is_Some (bounds r)) (windowRequests (service l)) ∧
  length (opened (service l)) + length (suspended l) ≤
    length (windowRequests (service l)).
Proof.
  assert (H : ∀ l0,
    Forall (λ r, is_Some (bounds r)) (windowRequests (service l0)) ∧
    length (opened (service l0)) + length (suspended l0) ≤
      length (windowRequests (service l0)) →
    Forall (λ r, is_Some (bounds r)) (windowRequests (service (run acts l0))) ∧
    length (opened (service (run acts l0))) + length (suspended (run acts l0)) ≤
      length (windowRequests (service (run acts l0)))).
  { induction acts as [|a acts IH]; intros l0 [Hb Hn]; [done|].
    simpl. apply IH.
    destruct (requests_step a l0) as (asked & Hr & Hasked & Hlen).
    rewrite Hr, length_app. split; [by apply Forall_app|lia]. }
  apply H. split; [by constructor | simpl; lia].
Qed.
End Collaborators.

(** ** The scenario, run *)

Lemma openFloatingPanel_existing_witness :
  floatingPanelsByViewId (explorerFloating true) !! "explorer" = Some explorerPanel ∧
  (openFloatingPanel floatExplorer (Resolves true) (explorerFloating true)).1 =
    inr explorerPanel ∧
  length (getAllFloatingPanels
            (openFloatingPanel floatExplorer (Resolves true) (explorerFloating true)).2) = 1.
Proof.
  split; [reflexivity|].
  pose proof (openFloatingPanel_existing floatExplorer (Resolves true)
                (explorerFloating true) explorerPanel eq_refl) as H.
  simpl in H. destruct H as (Hr & _ & _ & _ & _ & Hlen & _).
  split; [exact Hr | rewrite Hlen; reflexivity].
Defined.

Lemma openFloatingPanel_window_failure_witness :
  floatingPanelsByViewId initial !! "explorer" = None ∧
  (openFloatingPanel floatExplorer (Rejects "denied") initial).1 = inl "denied" ∧
  floatingPanels (openFloatingPanel floatExplorer (Rejects "denied") initial).2 = ∅.
Proof.
  split; [reflexivity|].
  pose proof (openFloatingPanel_window_failure floatExplorer "denied" initial
                eq_refl) as H.
  simpl in H. destruct H as ((Hr & Hm & _) & _).
  split; [exact Hr | exact Hm].
Defined.

Lemma unknown_panel_id_noop_witness :
  floatingPanels (explorerFloating true) !! "floating-panel-7" = None ∧
  closeFloatingPanel "floating-panel-7" (explorerFloating true) =
    explorerFloating true ∧
  dockFloatingPanel registry "floating-panel-7" Sidebar (explorerFloating true) =
    explorerFloating true.
Proof.
  split; [reflexivity|].
  apply (unknown_panel_id_noop registry "floating-panel-7" Sidebar
           (explorerFloating true)).
  reflexivity.
Defined.

Lemma openFloatingPanel_default_bounds_witness :
  opt_bounds floatExplorer = None ∧
  windowRequests (openFloatingPanel floatExplorer (Resolves true) initial).2 =
    [ {| bounds := Some {| width := 400; height := 300 |} |} ].
Proof.
  split; [reflexivity|].
  pose proof (openFloatingPanel_default_bounds floatExplorer (Resolves true)
                initial eq_refl) as H.
  simpl in H. destruct H as [_ H]. exact H.
Defined.

Lemma maps_consistent_after_operation_witness :
  Inv (explorerFloating true) ∧
  Consistent (perform registry (DockFloatingPanel "floating-panel-0" Sidebar)
                (explorerFloating true)).
Proof.
  assert (H : Inv (explorerFloating true))
    by apply (inv_openFloatingPanel floatExplorer (Resolves true) initial inv_initial).
  split; [exact H|].
  apply (maps_consistent_after_operation registry
           (DockFloatingPanel "floating-panel-0" Sidebar) (explorerFloating true) H).
Defined.

Lemma close_event_exactly_once_witness :
  let l := run registry [CallOpen floatExplorer; Settle 0 (Resolves true)] loop0 in
  floatingPanels (service l) !! "floating-panel-0" = Some explorerPanel ∧
  windowPhase 0 (service l) = Some Live ∧
  windowSync 0 (service l) = Some true ∧
  closeCount explorerPanel
    (service (run registry
                [CallOpen floatExplorer; Settle 0 (Resolves true);
                 Unload 0; CallClose "floating-panel-0"]
                (step registry (CallClose "floating-panel-0") l))) = 1.
Proof.
  intros l. split; [reflexivity|]. split; [reflexivity|]. split; [reflexivity|].
  apply (close_event_exactly_once registry
           [CallOpen floatExplorer; Settle 0 (Resolves true)]
           [CallOpen floatExplorer; Settle 0 (Resolves true);
            Unload 0; CallClose "floating-panel-0"]
           ByClose explorerPanel); [reflexivity | reflexivity | reflexivity].
Defined.

Lemma dockFloatingPanel_relocates_then_closes_witness :
  let s := service (run registry [CallOpen floatExplorer; Settle 0 (Resolves true)]
                      loop0) in
  floatingPanels s !! "floating-panel-0" = Some explorerPanel ∧
  relocations (dockFloatingPanel registry "floating-panel-0" Panel s) = [] ∧
  isViewFloating "explorer" (dockFloatingPanel registry "floating-panel-0" Panel s)
    = false.
Proof.
  intros s. split; [reflexivity|].
  pose proof (dockFloatingPanel_relocates_then_closes registry
                [CallOpen floatExplorer; Settle 0 (Resolves true)]
                "floating-panel-0" Panel explorerPanel eq_refl) as H.
  simpl in H. destruct H as (Hr & _ & Hc).
  split; [exact Hr|]. apply Hc; reflexivity.
Defined.

(** ** Where the code misses what it sets out to do *)

(** C3 (the code at the claim's input). A panel whose window delivers its
    unload notification after [close()] has returned: [dispose] has dropped
    the panel's subscription right after [window.dispose()], so the
    notification, delivered once, reaches nobody. [onDidCloseFloatingPanel]
    fires zero times, not once, and both maps still hold the panel. *)
Lemma close_event_lost_on_late_unload :
  let closed := service (run registry
                  [CallOpen floatExplorer; Settle 0 (Resolves false);
                   CallClose "floating-panel-0"] loop0) in
  let unloaded := window_unload 0 closed in
  windowPhase 0 closed = Some Closing ∧
  windowPhase 0 unloaded = Some Unloaded ∧
  closeCount explorerPanel unloaded = 0 ∧
  closeCount explorerPanel unloaded ≠ 1 ∧
  getFloatingPanel "floating-panel-0" unloaded = Some explorerPanel ∧
  getFloatingPanelByViewId "explorer" unloaded = Some explorerPanel.
Proof. cbv zeta. repeat split; try reflexivity. vm_compute. discriminate. Qed.

(** C4 (the code at the claim's input). Docking a known panel whose window
    delivers its unload notification after [close()] has returned: the
    registry is not asked to move the view (it may not move), the window is
    destroyed, and the panel id stays known and the view stays floating,
    also after the notification has been delivered. *)
Lemma dockFloatingPanel_late_unload_stays_floating :
  let docked := dockFloatingPanel registry "floating-panel-0" Panel
                  (explorerFloating false) in
  let unloaded := window_unload 0 docked in
  getFloatingPanel "floating-panel-0" (explorerFloating false) = Some explorerPanel ∧
  relocations docked = [] ∧
  getFloatingPanel "floating-panel-0" docked = Some explorerPanel ∧
  isViewFloating "explorer" docked = true ∧
  getFloatingPanel "floating-panel-0" unloaded = Some explorerPanel ∧
  isViewFloating "explorer" unloaded = true.
Proof. cbv zeta. repeat split; reflexivity. Qed.

(** C7 at a concrete input: [explorer] has focus, is registered and is not
    floating, and the command invoked without a view id leaves the state
    untouched. *)
Lemma FloatViewAction_run_focused_explorer :
  truthy (Some "explorer") = true ∧
  isViewFloating "explorer" initial = false ∧
  FloatViewAction_run registry (Some "explorer") None (Resolves true) initial
    = initial ∧
  opened (FloatViewAction_run registry (Some "explorer") (Some "explorer")
            (Resolves true) initial) = [explorerPanel].
Proof. repeat split; reflexivity. Qed.

(** ** The float command and the registry *)

(** X16. The float command uses the View Registry only to learn whether the
    view is registered, and the focused view not at all: with two
    registries that know the same views, whatever their descriptors say,
    and any two focused views, the command does the same. The title it
    derives from the descriptor never reaches the window. *)
Theorem FloatViewAction_run_ignores_descriptor
    (registry1 registry2 : string → option IViewDescriptor)
    (focused1 focused2 : option string) arg outcome s :
  (∀ v, is_Some (registry1 v) ↔ is_Some (registry2 v)) →
  FloatViewAction_run registry1 focused1 arg outcome s =
  FloatViewAction_run registry2 focused2 arg outcome s.
Proof.
  intros Hsame. unfold FloatViewAction_run.
  destruct (negb (truthy arg)).
  { by destruct (truthy focused1), (truthy focused2). }
  destruct arg as [v|]; [|done].
  specialize (Hsame v).
  destruct (registry1 v) as [d1|], (registry2 v) as [d2|].
  - destruct (isViewFloating v s); [done|].
    by unfold openFloatingPanel, openFloatingPanel_begin.
  - destruct Hsame as [H _]. by destruct H.
  - destruct Hsame as [_ H]. by destruct H.
  - done.
Qed.

(** ** The further properties in the scenario *)

Lemma runCommand_without_target_witness :
  truthy (Some "") = false ∧
  runCommand views (Some "explorer") DockViewToPanel (Some "")
    (explorerFloating true) = explorerFloating true.
Proof.
  split; [reflexivity|].
  apply (runCommand_without_target views (Some "explorer") DockViewToPanel
           (Some "") (explorerFloating true)).
  reflexivity.
Defined.

Lemma FloatViewAction_run_unregistered_witness :
  views "terminal" = None ∧
  FloatViewAction_run views None (Some "terminal") (Resolves true) initial
    = initial.
Proof.
  split; [reflexivity|].
  apply (FloatViewAction_run_unregistered views None "terminal" (Resolves true)
           initial).
  reflexivity.
Defined.

Lemma dock_command_effects_witness :
  dockTarget DockViewToSidebar = Some Sidebar ∧
  opened (runCommand views None DockViewToSidebar (Some "search")
            (searchFloating true)) = opened (searchFloating true).
Proof.
  split; [reflexivity|].
  pose proof (dock_command_effects views None DockViewToSidebar Sidebar
                (Some "search") (searchFloating true) eq_refl) as H.
  cbv zeta in H. destruct H as (Ho & _). exact Ho.
Defined.

Lemma FloatViewAction_run_twice_witness :
  "search" ≠ "" ∧ views "search" = Some search ∧
  isViewFloating "search"
    (FloatViewAction_run views None (Some "search") (Resolves true) initial)
    = true.
Proof.
  split; [discriminate|]. split; [reflexivity|].
  pose proof (FloatViewAction_run_twice views None "search" search true
                (Resolves true) initial ltac:(discriminate) eq_refl) as H.
  cbv zeta in H. destruct H as (Hf & _). exact Hf.
Defined.

Lemma runCommand_keeps_invariant_witness :
  Inv initial ∧
  Inv (runCommand views None (FloatView (Resolves true)) (Some "search") initial).
Proof.
  split; [apply inv_initial|].
  apply (runCommand_keeps_invariant views None (FloatView (Resolves true))
           (Some "search") initial inv_initial).
Defined.

Lemma dock_command_on_floating_view_witness :
  Inv (searchFloating true) ∧
  dockTarget DockViewToAuxiliaryBar = Some AuxiliaryBar ∧
  "search" ≠ "" ∧
  floatingPanelsByViewId (searchFloating true) !! "search" = Some searchPanel ∧
  windowPhase 0 (searchFloating true) = Some Live ∧
  windowSync 0 (searchFloating true) = Some true ∧
  isViewFloating "search"
    (runCommand views None DockViewToAuxiliaryBar (Some "search")
       (searchFloating true)) = false.
Proof.
  assert (Hinv : Inv (searchFloating true))
    by apply (inv_openFloatingPanel floatSearch (Resolves true) initial inv_initial).
  split; [exact Hinv|]. split; [reflexivity|]. split; [discriminate|].
  split; [reflexivity|]. split; [reflexivity|]. split; [reflexivity|].
  pose proof (dock_command_on_floating_view views None DockViewToAuxiliaryBar
                AuxiliaryBar "search" searchPanel (searchFloating true)
                Hinv eq_refl ltac:(discriminate) eq_refl eq_refl eq_refl) as H.
  cbv zeta in H. destruct H as (Hf & _). exact Hf.
Defined.

Lemma openFloatingPanel_creates_witness :
  floatingPanelsByViewId
    (service (run views [CallOpen floatExplorer; Settle 0 (Resolves true)] loop0))
    !! "search" = None ∧
  isViewFloating "search"
    (openFloatingPanel floatSearch (Resolves false)
       (service (run views [CallOpen floatExplorer; Settle 0 (Resolves true)]
                   loop0))).2 = true.
Proof.
  split; [reflexivity|].
  pose proof (openFloatingPanel_creates views
                [CallOpen floatExplorer; Settle 0 (Resolves true)]
                floatSearch false eq_refl) as H.
  cbv zeta in H. destruct H as (p & _ & _ & _ & _ & _ & _ & Hf & _). exact Hf.
Defined.

Lemma open_then_close_restores_maps_witness :
  floatingPanelsByViewId
    (service (run views [CallOpen floatExplorer; Settle 0 (Resolves true)] loop0))
    !! "search" = None ∧
  floatingPanels
    (closeFloatingPanel "floating-panel-1"
       (openFloatingPanel floatSearch (Resolves true)
          (service (run views [CallOpen floatExplorer; Settle 0 (Resolves true)]
                      loop0))).2) =
  floatingPanels
    (service (run views [CallOpen floatExplorer; Settle 0 (Resolves true)] loop0)).
Proof.
  split; [reflexivity|].
  pose proof (open_then_close_restores_maps views
                [CallOpen floatExplorer; Settle 0 (Resolves true)]
                floatSearch eq_refl) as H.
  cbv zeta in H. destruct H as (Hm & _). exact Hm.
Defined.

Lemma closing_leaves_other_panels_witness :
  floatingPanels
    (service (run views [CallOpen floatExplorer; Settle 0 (Resolves true);
                         CallOpen floatSearch; Settle 0 (Resolves false)] loop0))
    !! "floating-panel-0" = Some explorerPanel ∧
  getFloatingPanelByViewId "search"
    (closeFloatingPanel "floating-panel-0"
       (service (run views [CallOpen floatExplorer; Settle 0 (Resolves true);
                            CallOpen floatSearch; Settle 0 (Resolves false)]
                   loop0))) =
  getFloatingPanelByViewId "search"
    (service (run views [CallOpen floatExplorer; Settle 0 (Resolves true);
                         CallOpen floatSearch; Settle 0 (Resolves false)] loop0)).
Proof.
  split; [reflexivity|].
  pose proof (closing_leaves_other_panels views
                [CallOpen floatExplorer; Settle 0 (Resolves true);
                 CallOpen floatSearch; Settle 0 (Resolves false)]
                "floating-panel-0" Sidebar explorerPanel eq_refl) as H.
  destruct H as [_ H].
  destruct (H "search" ltac:(discriminate)) as [Hclose _]. exact Hclose.
Defined.

Lemma overlapping_calls_for_different_views_witness :
  disjointOpens views
    [CallOpen floatExplorer; CallOpen floatSearch; Settle 1 (Resolves true);
     Settle 0 (Resolves false); CallDock "floating-panel-0" Sidebar] loop0
    = true ∧
  Consistent
    (service (run views
       [CallOpen floatExplorer; CallOpen floatSearch; Settle 1 (Resolves true);
        Settle 0 (Resolves false); CallDock "floating-panel-0" Sidebar] loop0)).
Proof.
  split; [reflexivity|].
  apply (overlapping_calls_for_different_views views
           [CallOpen floatExplorer; CallOpen floatSearch; Settle 1 (Resolves true);
            Settle 0 (Resolves false); CallDock "floating-panel-0" Sidebar]).
  reflexivity.
Defined.

Lemma queries_agree_witness :
  Consistent (searchFloating true) ∧
  (getFloatingPanelByViewId "search" (searchFloating true) = Some searchPanel ↔
   searchPanel ∈ getAllFloatingPanels (searchFloating true) ∧
   viewId searchPanel = "search").
Proof.
  assert (Hc : Consistent (searchFloating true)).
  { apply inv_consistent.
    apply (inv_openFloatingPanel floatSearch (Resolves true) initial inv_initial). }
  split; [exact Hc|].
  apply (queries_agree (searchFloating true) Hc).
Defined.

Lemma one_panel_per_floating_view_witness :
  Consistent (searchFloating true) ∧
  length (getAllFloatingPanels (searchFloating true)) =
    size (floatingPanelsByViewId (searchFloating true)).
Proof.
  assert (Hc : Consistent (searchFloating true)).
  { apply inv_consistent.
    apply (inv_openFloatingPanel floatSearch (Resolves true) initial inv_initial). }
  split; [exact Hc|].
  apply (one_panel_per_floating_view (searchFloating true) Hc).
Defined.

Lemma FloatViewAction_run_ignores_descriptor_witness :
  (∀ v, is_Some (views v) ↔ is_Some (renamedViews v)) ∧
  FloatViewAction_run views None (Some "search") (Resolves true) initial =
  FloatViewAction_run renamedViews (Some "explorer") (Some "search")
    (Resolves true) initial.
Proof.
  assert (H : ∀ v, is_Some (views v) ↔ is_Some (renamedViews v)).
  { intros v. unfold renamedViews. by rewrite fmap_is_Some. }
  split; [exact H|].
  apply (FloatViewAction_run_ignores_descriptor views renamedViews None
           (Some "explorer") (Some "search") (Resolves true) initial H).
Defined.
